(** * Reconciliation engine of obsidian-livesync: a shallow embedding

    The development follows two source files:
    - [src/common/utils.ts]: the freshness comparator ([compareMTime],
      [compareFileFreshness]) and the equivalence tracker
      ([markChangesAreSame], [unmarkChanges], [isMarkedAsSameChanges]);
    - [src/modules/core/ModuleFileHandler.ts]: the reconciliation engine
      ([storeFileToDB], [deleteFileFromDB], [dbToStorage], ...) and its two
      entry points.

    Modification times are integer milliseconds, embedded as [Z]; the
    32-bit coercion performed by the [~~] operator is written out. *)

From stdpp Require Import base numbers option list strings gmap.
From Stdlib Require Import ZArith Lia Ascii String.

Local Open Scope Z_scope.

(** ** Shared data model (lib/src/common/types) *)

(** A JavaScript function either completes normally or throws. *)
Inductive Completion (A : Type) : Type :=
  | Normal (a : A)
  | Throw (msg : string).
Arguments Normal {A} a.
Arguments Throw {A} msg.

(** Body of a file or of a document: chunks of text, or a blob. *)
Inductive DocData : Type :=
  | DataChunks (chunks : list string)
  | DataBlob (bytes : list Byte.byte).

Record UXStat : Type := mkStat {
  size : Z;
  mtime : Z;
  ctime : Z;
}.

Record UXFileInfoStub : Type := mkStub {
  name : string;
  path : string;
  stat : UXStat;
  isFolder : bool;
  isInternal : bool;
}.

(** A [UXFileInfo] is a stub together with its [body]. *)
Record UXFileInfo : Type := mkFile {
  stub : UXFileInfoStub;
  body : DocData;
}.

(** A value of type [UXFileInfoStub | UXFileInfo]; the test
    ["body" in file && file.body] tells the two apart. *)
Definition FileInfo : Type := (UXFileInfoStub + UXFileInfo)%type.

Definition stubOf (f : FileInfo) : UXFileInfoStub :=
  match f with
  | inl s => s
  | inr fi => stub fi
  end.

(** A value of type [UXFileInfoStub | UXFileInfo | FilePath]. *)
Definition FileRef : Type := (string + FileInfo)%type.

(** [MetaEntry] / [LoadedEntry] / [AnyEntry]: a database document.  Both
    historical deletion markers are optional fields. *)
Record Entry : Type := mkEntry {
  _id : string;
  _rev : option string;
  e_path : string;
  e_mtime : Z;
  e_ctime : Z;
  e_size : Z;
  deleted : option bool;
  _deleted : option bool;
  data : list string;
}.

(** An argument of type [AnyEntry | string | UXFileInfoStub]. *)
Inductive FileArg : Type :=
  | ByPath (p : string)
  | ByStub (f : UXFileInfoStub)
  | ByEntry (e : Entry).

Definition arg_path (a : FileArg) : string :=
  match a with
  | ByPath p => p
  | ByStub f => path f
  | ByEntry e => e_path e
  end.

(** Functions imported from the common library and the platform, which
    the two source files only call. *)
Class CommonLib : Type := {
  stripAllPrefixes : string -> string;
  id2path_base : string -> Entry -> string;
  normalizePath : string -> string;
  shouldBeIgnored : string -> bool;
  isDocContentSame : DocData -> DocData -> bool;
  getDocDataAsArray : list string -> list string;
  readContent : Entry -> DocData;
}.

(** ** src/common/utils.ts *)
Module Utils.

Inductive Freshness : Type := BASE_IS_NEW | TARGET_IS_NEW | EVEN.

#[global] Instance Freshness_eq_dec : EqDecision Freshness.
Proof. solve_decision. Defined.

(** [ToInt32] of an integer: reduction modulo 2^32 into [-2^31, 2^31). *)
Definition toInt32 (n : Z) : Z := (n + 2 ^ 31) `mod` 2 ^ 32 - 2 ^ 31.

(** [~~(x / y)] on integers: the quotient truncated towards zero, then
    coerced to 32 bits.  Timestamps are integer milliseconds; the code
    divides in double precision, and for [y = 2000] and [|x| < 2^53] the
    rounded quotient truncates to this integer quotient (its fractional
    part is a multiple of 1/2000, more than half a unit in the last place
    away from the next integer).  From 2^53 on the rounding of the
    division can move a quotient across an integer, so statements about
    the exact bucket of a timestamp carry that bound. *)
Definition truncInt32 (x y : Z) : Z := toInt32 (x `quot` y).

Definition resolution : Z := 2000.

Definition compareMTime (baseMTime targetMTime : Z) : Completion Freshness :=
  let truncatedBaseMTime := truncInt32 baseMTime resolution * resolution in
  let truncatedTargetMTime := truncInt32 targetMTime resolution * resolution in
  if truncatedBaseMTime =? truncatedTargetMTime then Normal EVEN
  else if truncatedBaseMTime >? truncatedTargetMTime then Normal BASE_IS_NEW
  else if truncatedBaseMTime <? truncatedTargetMTime then Normal TARGET_IS_NEW
  else Throw "Unexpected error".

(** [String.prototype.split] on a one-character separator. *)
Fixpoint split (sep : ascii) (s : string) : list string :=
  match s with
  | EmptyString => [EmptyString]
  | String c r =>
      if Ascii.eqb c sep then EmptyString :: split sep r
      else match split sep r with
           | h :: t => String c h :: t
           | [] => [String c EmptyString]
           end
  end.

(** [Array.prototype.join]. *)
Definition join (sep : string) (l : list string) : string := String.concat sep l.

Section WithLib.
Context `{CommonLib}.

Definition id2path (id : string) (entry : Entry) : string :=
  let filename := id2path_base id entry in
  let temp := split ":" filename in
  let path := List.last temp EmptyString in
  let temp := removelast temp in
  let normalizedPath := normalizePath path in
  let temp := temp ++ [normalizedPath] in
  join ":" temp.

Definition getPath (entry : Entry) : string := id2path (_id entry) entry.

Definition getPathWithoutPrefix (entry : Entry) : string :=
  stripAllPrefixes (getPath entry).

Definition getStoragePathFromUXFileInfo (file : FileArg) : string :=
  match file with
  | ByPath p => stripAllPrefixes p
  | _ => stripAllPrefixes (arg_path file)
  end.

Definition getKey (file : FileArg) : string :=
  match file with
  | ByPath p => p
  | _ => stripAllPrefixes (arg_path file)
  end.

(** Modelled from the spec: [sameChangePairs] of [src/common/stores.ts],
    the persisted registry keyed by path whose values are the timestamps
    judged equivalent; [get key def], [set key v] and [delete key] are
    the lookup with default, insertion and removal of a finite map. *)
Definition PairStore : Type := gmap string (list Z).

Definition store_get (s : PairStore) (key : string) (def : list Z) : list Z :=
  default def (s !! key).

(** [[...new Set(l)]]: duplicates dropped, first occurrences kept in order. *)
Fixpoint uniqFrom (seen l : list Z) : list Z :=
  match l with
  | [] => []
  | x :: r =>
      if bool_decide (x ∈ seen) then uniqFrom seen r
      else x :: uniqFrom (x :: seen) r
  end.

Definition arrayFromSet (l : list Z) : list Z := uniqFrom [] l.

(** [Array.prototype.indexOf]: first index holding [e], or [-1]. *)
Fixpoint indexOf (l : list Z) (e : Z) : Z :=
  match l with
  | [] => -1
  | x :: r =>
      if x =? e then 0
      else let i := indexOf r e in if i =? -1 then -1 else i + 1
  end.

(** Returns [true] on the early exit and [undefined] otherwise. *)
Definition markChangesAreSame (file : FileArg) (mtime1 mtime2 : Z)
    (s : PairStore) : option bool * PairStore :=
  if mtime1 =? mtime2 then (Some true, s)
  else
    let key := getKey file in
    let pairs := store_get s key [] in
    if existsb (fun e => (e =? mtime1) || (e =? mtime2)) pairs then
      (None, <[key := arrayFromSet (pairs ++ [mtime1; mtime2])]> s)
    else
      (None, <[key := [mtime1; mtime2]]> s).

Definition unmarkChanges (file : FileArg) (s : PairStore) : PairStore :=
  let key := getKey file in
  delete key s.

(** Returns [EVEN] or [undefined]. *)
Definition isMarkedAsSameChanges (file : FileArg) (mtimes : list Z)
    (s : PairStore) : option Freshness :=
  let key := getKey file in
  let pairs := store_get s key [] in
  if forallb (fun e => negb (indexOf pairs e =? -1)) mtimes then Some EVEN
  else None.

(** A call on the tracker, and a sequence of calls run in order. *)
Inductive TrackerOp : Type :=
  | OpMark (file : FileArg) (mtime1 mtime2 : Z)
  | OpUnmark (file : FileArg).

Definition runOp (op : TrackerOp) (s : PairStore) : PairStore :=
  match op with
  | OpMark file mtime1 mtime2 => snd (markChangesAreSame file mtime1 mtime2 s)
  | OpUnmark file => unmarkChanges file s
  end.

Definition runOps (ops : list TrackerOp) (s : PairStore) : PairStore :=
  fold_left (fun s op => runOp op s) ops s.

(** The call registers a pair under [key]. *)
Definition registersFor (key : string) (op : TrackerOp) : bool :=
  match op with
  | OpMark file mtime1 mtime2 =>
      bool_decide (getKey file = key) && negb (mtime1 =? mtime2)
  | OpUnmark _ => false
  end.

(** A value of type [UXFileInfoStub | AnyEntry]; the test ["stat" in x]
    tells the two apart. *)
Definition FileOrEntry : Type := (UXFileInfoStub + Entry)%type.

Definition asArg (x : FileOrEntry) : FileArg :=
  match x with
  | inl f => ByStub f
  | inr e => ByEntry e
  end.

(** ["stat" in x ? x.stat.mtime : x.mtime] *)
Definition modifiedOf (x : FileOrEntry) : Z :=
  match x with
  | inl f => mtime (stat f)
  | inr e => e_mtime e
  end.

(** Truthiness of a number. *)
Definition truthy (n : Z) : bool := negb (n =? 0).

Definition compareFileFreshness (baseFile checkTarget : option FileOrEntry)
    (s : PairStore) : Completion Freshness :=
  match baseFile, checkTarget with
  | None, None => Normal EVEN
  | None, Some _ => Normal TARGET_IS_NEW
  | Some _, None => Normal BASE_IS_NEW
  | Some baseFile, Some checkTarget =>
      let modifiedBase := modifiedOf baseFile in
      let modifiedTarget := modifiedOf checkTarget in
      if truthy modifiedBase && truthy modifiedTarget
         && bool_decide (is_Some (isMarkedAsSameChanges (asArg baseFile)
                                    [modifiedBase; modifiedTarget] s))
      then Normal EVEN
      else compareMTime modifiedBase modifiedTarget
  end.

End WithLib.

(** [String.prototype.startsWith] *)
Definition startsWith (s searchString : string) : bool :=
  String.prefix searchString s.

(** [s.substring(start)] with [start] a length: the rest of the string. *)
Definition substringFrom (start : nat) (s : string) : string :=
  String.substring start (String.length s - start) s.

Definition trimPrefix (target prefix : string) : string :=
  if startsWith target prefix then substringFrom (String.length prefix) target
  else target.

(** What precedes the last segment: nothing, or segments closed by the
    separator. *)
Definition leading (sep : string) (l : list string) : string :=
  match l with
  | [] => EmptyString
  | _ => join sep l +:+ sep
  end.

(** The character occurs in the string. *)
Fixpoint occurs (c : ascii) (s : string) : bool :=
  match s with
  | EmptyString => false
  | String c' r => Ascii.eqb c' c || occurs c r
  end.

(** [const [number, hash] = rev.split("-")]: without a dash [hash] is
    [undefined] and [hash.substring] raises a [TypeError]. *)
Definition displayRev (rev : string) : Completion string :=
  match split "-" rev with
  | number :: hash :: _ =>
      Normal (number +:+ "-" +:+ String.substring 0 6 hash)
  | _ => Throw "TypeError: hash is undefined"
  end.

Record DocumentProps : Type := mkDocProps {
  dp_id : string;
  dp_rev : option string;
  dp_prefixedPath : string;
  dp_path : string;
  dp_isDeleted : bool;
  dp_revDisplay : string;
  dp_shortenedId : string;
  dp_shortenedPath : string;
}.

(** The closure returned by [onlyInNTimes(n, proc)]: one call, from the
    counter it holds, gives the argument passed to [proc] (if it is called)
    and the new counter.  With [n = 0] the remainder is [NaN]. *)
Definition onlyInNTimes_call (n : Z) (counter : Z) : option Z * Z :=
  let tested := counter in
  let counter := counter + 1 in
  if negb (n =? 0) && (Z.rem tested n =? 0) then (Some counter, counter)
  else (None, counter).

(** The arguments [proc] has received after [k] calls of the closure. *)
Fixpoint onlyInNTimes_run (n : Z) (k : nat) (counter : Z) : list Z * Z :=
  match k with
  | O => ([], counter)
  | Datatypes.S k' =>
      let '(called, counter') := onlyInNTimes_call n counter in
      let '(rest, final) := onlyInNTimes_run n k' counter' in
      (match called with Some p => p :: rest | None => rest end, final)
  end.

Section Headers.
Context `{CommonLib}.
(** The constants of [src/common/types.ts]. *)
Variables (ICHeader ICXHeader : string) (ICHeaderLength : nat).
(** [path2id_base] of the common library. *)
Variable path2id_base : string -> option string -> bool -> string.

Definition path2id (filename : string) (obfuscatePassphrase : option string)
    (caseInsensitive : bool) : string :=
  let temp := split ":" filename in
  let path := List.last temp EmptyString in
  let temp := removelast temp in
  let normalizedPath := normalizePath path in
  let temp := temp ++ [normalizedPath] in
  let fixedPath := join ":" temp in
  path2id_base fixedPath obfuscatePassphrase caseInsensitive.

Definition isInternalFile (file : string + UXFileInfoStub) : bool :=
  match file with
  | inl p => startsWith p ICHeader
  | inr f => if isInternal f then true else false
  end.

Definition getPathFromUXFileInfo (file : string + UXFileInfoStub) : string :=
  match file with
  | inl p => p
  | inr f => path f
  end.

Definition getDatabasePathFromUXFileInfo (file : string + UXFileInfoStub)
    : string :=
  match file with
  | inl p =>
      if startsWith p ICXHeader then p
      else
        let prefix := if isInternalFile file then ICHeader else EmptyString in
        prefix +:+ stripAllPrefixes p
  | inr f =>
      let prefix := if isInternalFile file then ICHeader else EmptyString in
      prefix +:+ stripAllPrefixes (path f)
  end.

Definition isInternalMetadata (id : string) : bool := startsWith id ICHeader.

Definition stripInternalMetadataPrefix (id : string) : string :=
  substringFrom ICHeaderLength id.

Definition id2InternalMetadataId (id : string) : string := ICHeader +:+ id.

(** Truthiness of an optional string: present and not empty. *)
Definition truthyString (o : option string) : option string :=
  match o with
  | Some EmptyString => None
  | _ => o
  end.

Definition getDocProps (doc : Entry) : Completion DocumentProps :=
  let id := _id doc in
  let shortenedId := String.substring 0 10 id in
  let prefixedPath := getPath doc in
  let path := stripAllPrefixes prefixedPath in
  let rev := _rev doc in
  let shortenedPath := String.substring 0 10 path in
  let isDeleted :=
    default false (_deleted doc) || default false (deleted doc) || false in
  match match truthyString rev with
        | Some r => displayRev r
        | None => Normal "0-NOREVS"
        end with
  | Throw msg => Throw msg
  | Normal revDisplay =>
      Normal (mkDocProps id rev prefixedPath path isDeleted revDisplay
                         shortenedId shortenedPath)
  end.

End Headers.

(** [autosaveCache]: the [Map] it wraps, keys in insertion order, and
    the number of saves it has scheduled. *)
Section AutosaveCache.
Context {K V : Type} `{EqDecision K}.
(** [savedData.get(key) !== value] *)
Variable strictNe : option V -> V -> bool.

Record Cache : Type := mkCache {
  savedData : list (K * V);
  commits : nat;
}.

Fixpoint map_get (key : K) (m : list (K * V)) : option V :=
  match m with
  | [] => None
  | (k, v) :: r => if decide (k = key) then Some v else map_get key r
  end.

(** [Map.prototype.set]: a known key keeps its place. *)
Fixpoint map_set (key : K) (value : V) (m : list (K * V)) : list (K * V) :=
  match m with
  | [] => [(key, value)]
  | (k, v) :: r =>
      if decide (k = key) then (k, value) :: r else (k, v) :: map_set key value r
  end.

Fixpoint map_delete (key : K) (m : list (K * V)) : list (K * V) :=
  match m with
  | [] => []
  | (k, v) :: r =>
      if decide (k = key) then r else (k, v) :: map_delete key r
  end.

Definition _commit (c : Cache) : Cache :=
  mkCache (savedData c) (Datatypes.S (commits c)).

Definition cache_set (key : K) (value : V) (c : Cache) : Cache :=
  let modified := strictNe (map_get key (savedData c)) value in
  let c := mkCache (map_set key value (savedData c)) (commits c) in
  if modified then _commit c else c.

Definition cache_clear (c : Cache) : Cache :=
  _commit (mkCache [] (commits c)).

Definition cache_delete (key : K) (c : Cache) : bool * Cache :=
  let result := bool_decide (is_Some (map_get key (savedData c))) in
  let c := mkCache (map_delete key (savedData c)) (commits c) in
  (result, if result then _commit c else c).

Definition cache_get (key : K) (c : Cache) : option V :=
  map_get key (savedData c).

Definition cache_has (key : K) (c : Cache) : bool :=
  bool_decide (is_Some (map_get key (savedData c))).

Definition cache_keys (c : Cache) : list K := List.map fst (savedData c).

Definition cache_size (c : Cache) : nat := List.length (savedData c).

End AutosaveCache.

End Utils.

(** ** src/modules/features/ModuleLog.ts: the recent log splicer *)
Module ModuleLog.



End ModuleLog.

(** ** src/modules/core/ModuleFileHandler.ts *)
Module ModuleFileHandler.
Import Utils.

Inductive LogLevel : Type := LOG_LEVEL_VERBOSE | LOG_LEVEL_INFO | LOG_LEVEL_NOTICE.

(** [this.core.databaseFileAccess]: lookups read the database state [D],
    [delete], [store] and [createChunks] change it. *)
Class DatabaseFileAccess (D : Type) : Type := {
  db_fetchEntry : D -> FileRef -> option string -> bool -> bool -> option Entry;
  db_fetchEntryMeta : D -> FileRef -> option string -> bool -> option Entry;
  db_fetchEntryFromMeta : D -> Entry -> option Entry;
  db_getConflictedRevs : D -> FileRef -> list string;
  db_delete : FileRef -> option string -> D -> bool * D;
  db_store : UXFileInfo -> option bool -> option bool -> D -> bool * D;
  db_createChunks : UXFileInfo -> bool -> bool -> D -> bool * D;
}.

(** [this.core.storageAccess] over the storage state [S]. *)
Class StorageAccess (S : Type) : Type := {
  st_getFileStub : S -> string -> option UXFileInfoStub;
  st_getStub : S -> string -> option UXFileInfoStub;
  st_readStubContent : S -> UXFileInfoStub -> option UXFileInfo;
  st_deleteVaultItem : string -> S -> S;
  st_ensureDir : string -> S -> S;
  st_writeFileAuto : string -> DocData -> Z * Z -> S -> bool * S;
  st_touched : string -> S -> S;
  st_triggerFileEvent : string -> string -> S -> S;
}.

(** The methods of [this.core] the module calls. *)
Class CoreServices (C : Type) : Type := {
  core_isTargetFile : C -> string -> bool;
  core_queueConflictCheckIfOpen : string -> C -> C;
}.

Record Settings : Type := mkSettings {
  writeDocumentsIfConflicted : bool;
}.

Section Engine.
Context `{CommonLib}.
Context {D S C : Type}.
Context `{DatabaseFileAccess D} `{StorageAccess S} `{CoreServices C}.

(** Everything the module reads or changes. *)
Record World : Type := mkWorld {
  db : D;
  storage : S;
  core : C;
  settings : Settings;
  pairs : PairStore;
  logs : list (string * LogLevel);
  events : list (string * string);
  locks : list string;
}.

(** State and exception monad of the asynchronous methods. *)
Definition M (A : Type) : Type := World -> Completion A * World.

Definition ret {A} (a : A) : M A := fun w => (Normal a, w).

Definition throw {A} (msg : string) : M A := fun w => (Throw msg, w).

Definition bind {A B} (m : M A) (k : A -> M B) : M B :=
  fun w =>
    match m w with
    | (Normal a, w') => k a w'
    | (Throw msg, w') => (Throw msg, w')
    end.

Notation "'let*' x ':=' m 'in' k" := (bind m (fun x => k))
  (at level 10, x name, m at level 100, k at level 200).
Notation "'run' m 'in' k" := (bind m (fun _ => k))
  (at level 10, m at level 100, k at level 200).

Definition liftC {A} (c : Completion A) : M A := fun w => (c, w).

(** Field updates of the world. *)
Definition withDb (d : D) (w : World) : World :=
  mkWorld d (storage w) (core w) (settings w) (pairs w) (logs w)
          (events w) (locks w).

Definition withStorage (s : S) (w : World) : World :=
  mkWorld (db w) s (core w) (settings w) (pairs w) (logs w)
          (events w) (locks w).

Definition withCore (c : C) (w : World) : World :=
  mkWorld (db w) (storage w) c (settings w) (pairs w) (logs w)
          (events w) (locks w).

Definition withPairs (p : PairStore) (w : World) : World :=
  mkWorld (db w) (storage w) (core w) (settings w) p (logs w)
          (events w) (locks w).

Definition withLogs (l : list (string * LogLevel)) (w : World) : World :=
  mkWorld (db w) (storage w) (core w) (settings w) (pairs w) l
          (events w) (locks w).

Definition withEvents (e : list (string * string)) (w : World) : World :=
  mkWorld (db w) (storage w) (core w) (settings w) (pairs w) (logs w)
          e (locks w).

Definition withLocks (l : list string) (w : World) : World :=
  mkWorld (db w) (storage w) (core w) (settings w) (pairs w) (logs w)
          (events w) l.

Definition readDb {A} (f : D -> A) : M A := fun w => (Normal (f (db w)), w).

Definition callDb {A} (f : D -> A * D) : M A :=
  fun w => (Normal (fst (f (db w))), withDb (snd (f (db w))) w).

Definition readStorage {A} (f : S -> A) : M A :=
  fun w => (Normal (f (storage w)), w).

Definition callStorage {A} (f : S -> A * S) : M A :=
  fun w => (Normal (fst (f (storage w))), withStorage (snd (f (storage w))) w).

Definition doStorage (f : S -> S) : M unit :=
  fun w => (Normal tt, withStorage (f (storage w)) w).

Definition readCore {A} (f : C -> A) : M A := fun w => (Normal (f (core w)), w).

Definition doCore (f : C -> C) : M unit :=
  fun w => (Normal tt, withCore (f (core w)) w).

Definition readSettings {A} (f : Settings -> A) : M A :=
  fun w => (Normal (f (settings w)), w).

Definition readPairs {A} (f : PairStore -> A) : M A :=
  fun w => (Normal (f (pairs w)), w).

Definition callPairs {A} (f : PairStore -> A * PairStore) : M A :=
  fun w => (Normal (fst (f (pairs w))), withPairs (snd (f (pairs w))) w).

(** [this._log(msg, level)] *)
Definition _log (msg : string) (level : LogLevel) : M unit :=
  fun w => (Normal tt, withLogs (logs w ++ [(msg, level)]) w).

(** [eventHub.emitEvent(name, arg)] *)
Definition emitEvent (name arg : string) : M unit :=
  fun w => (Normal tt, withEvents (events w ++ [(name, arg)]) w).

(** [serialized(key, proc)]: the key is taken, then [proc] runs. *)
Definition serialized {A} (key : string) (proc : M A) : M A :=
  fun w => proc (withLocks (locks w ++ [key]) w).

(** Truthiness of an optional boolean field. *)
Definition isTrue (o : option bool) : bool := default false o.

(** [!entry || entry.deleted || entry._deleted] fails: the entry is live. *)
Definition liveEntry (entry : option Entry) : option Entry :=
  match entry with
  | None => None
  | Some e => if isTrue (deleted e) || isTrue (_deleted e) then None else Some e
  end.

(** An object in a template string. *)
Definition objectObject : string := "[object Object]".

Definition showRef (info : FileRef) : string :=
  match info with
  | inl p => p
  | inr _ => objectObject
  end.

Definition showOpt (o : option string) : string := default "undefined" o.

(** [typeof info === "string" ? this.storage.getFileStub(info) : info] *)
Definition fileOf (info : option FileRef) (s : S) : option FileInfo :=
  match info with
  | None => None
  | Some (inl p) => inl <$> st_getFileStub s p
  | Some (inr f) => Some f
  end.

Definition resolveFile (info : option FileRef) : M (option FileInfo) :=
  readStorage (fileOf info).

Definition readFileFromStub (file : FileInfo) : M UXFileInfo :=
  match file with
  | inr fi => ret fi
  | inl s =>
      let* readFile := readStorage (fun st => st_readStubContent st s) in
      match readFile with
      | None => throw ("File " +:+ path s +:+ " is not exist on the storage")
      | Some readFile => ret readFile
      end
  end.

Definition storeFileToDB (info : FileRef) (force onlyChunks : bool)
    : M (option bool) :=
  let* file := resolveFile (Some info) in
  match file with
  | None =>
      run _log ("File " +:+ showRef info +:+ " is not exist on the storage")
               LOG_LEVEL_VERBOSE in
      ret (Some false)
  | Some file =>
      if isInternal (stubOf file) then
        run _log ("Internal file " +:+ path (stubOf file)
                  +:+ " is not allowed to be processed on processFileEvent")
                 LOG_LEVEL_VERBOSE in
        ret (Some false)
      else
        (* First, check the file on the database *)
        let* entry := readDb (fun d => db_fetchEntry d (inr file) None true true) in
        match liveEntry entry with
        | None =>
            (* If the file is not exist on the database, then it should be created. *)
            let* readFile := readFileFromStub file in
            if negb onlyChunks then
              let* r := callDb (db_store readFile None None) in ret (Some r)
            else
              let* r := callDb (db_createChunks readFile false true) in ret (Some r)
        | Some entry =>
            if negb force && negb onlyChunks then
              let shouldApplied := false in
              let* fresh := bind (readPairs (compareFileFreshness
                                   (Some (inl (stubOf file))) (Some (inr entry))))
                                 liftC in
              let shouldApplied :=
                if bool_decide (fresh <> EVEN) then true else shouldApplied in
              let* checked :=
                if negb shouldApplied then
                  let* readFile := readFileFromStub file in
                  if isDocContentSame (DataChunks (getDocDataAsArray (data entry)))
                                      (body readFile) then
                    run callPairs (markChangesAreSame (ByStub (stubOf file))
                                     (mtime (stat (stubOf file))) (e_mtime entry)) in
                    ret (Some readFile, shouldApplied)
                  else ret (Some readFile, true)
                else ret (None, shouldApplied) in
              let '(readFile, shouldApplied) := checked in
              if negb shouldApplied then
                run _log ("File " +:+ path (stubOf file) +:+ " is not changed")
                         LOG_LEVEL_VERBOSE in
                ret (Some true)
              else
                let* readFile :=
                  match readFile with
                  | None => readFileFromStub file
                  | Some readFile => ret readFile
                  end in
                if onlyChunks then
                  let* r := callDb (db_createChunks readFile false true) in
                  ret (Some r)
                else
                  let* r := callDb (db_store readFile (Some false) (Some true)) in
                  ret (Some r)
            else
              let* readFile := readFileFromStub file in
              if onlyChunks then
                let* r := callDb (db_createChunks readFile true true) in
                ret (Some r)
              else
                let* r := callDb (db_store readFile (Some true) (Some true)) in
                ret (Some r)
        end
  end.

Definition deleteFileFromDB (info : FileRef) : M (option bool) :=
  let* file := resolveFile (Some info) in
  match file with
  | None =>
      run _log ("File " +:+ showRef info +:+ " is not exist on the storage")
               LOG_LEVEL_VERBOSE in
      ret (Some false)
  | Some file =>
      if isInternal (stubOf file) then
        run _log ("Internal file " +:+ path (stubOf file)
                  +:+ " is not allowed to be processed on processFileEvent")
                 LOG_LEVEL_VERBOSE in
        ret (Some false)
      else
        (* First, check the file on the database *)
        let* entry := readDb (fun d => db_fetchEntry d (inr file) None true true) in
        match liveEntry entry with
        | None =>
            run _log ("File " +:+ path (stubOf file)
                      +:+ " is not exist or already deleted on the database")
                     LOG_LEVEL_VERBOSE in
            ret (Some false)
        | Some entry =>
            (* Check the file is already conflicted. if so, only the
               conflicted one should be deleted. *)
            let* conflictedRevs :=
              readDb (fun d => db_getConflictedRevs d (inr file)) in
            if Z.of_nat (List.length conflictedRevs) >? 0 then
              let* r := callDb (db_delete (inr file) (_rev entry)) in
              ret (Some r)
            else
              (* Otherwise, the file should be deleted simply. *)
              let* r := callDb (db_delete (inr file) None) in
              ret (Some r)
        end
  end.

Definition deleteRevisionFromDB (info : FileRef) (rev : string)
    : M (option bool) :=
  let* r := callDb (db_delete info (Some rev)) in
  ret (Some r).

(** The four storage calls that apply a document to the vault. *)
Definition applyToStorage (mode path : string) (docRead : Entry) (s : S)
    : bool * S :=
  let s1 := st_ensureDir path s in
  let r := st_writeFileAuto path (readContent docRead)
                            (e_ctime docRead, e_mtime docRead) s1 in
  (fst r, st_triggerFileEvent mode path (st_touched path (snd r))).

Definition dbToStorage (entryInfo : string + Entry) (info : option FileRef)
    (force : bool) : M bool :=
  let* file := resolveFile info in
  let mode := match file with None => "create" | Some _ => "modify" end in
  let* docEntry :=
    match entryInfo with
    | inl p => readDb (fun d => db_fetchEntryMeta d (inl p) None true)
    | inr e => readDb (fun d => db_fetchEntryMeta d (inl (e_path e)) None true)
    end in
  match docEntry with
  | None =>
      run _log ("File "
                +:+ match entryInfo with inl p => p | inr _ => objectObject end
                +:+ " is not exist on the database") LOG_LEVEL_VERBOSE in
      ret false
  | Some docEntry =>
      let path := getPath docEntry in
      (* 1. Check if it already conflicted. *)
      let* revs := readDb (fun d => db_getConflictedRevs d (inl path)) in
      let* deferred :=
        if Z.of_nat (List.length revs) >? 0 then
          let* writeThrough := readSettings writeDocumentsIfConflicted in
          if writeThrough then ret false
          else
            run doCore (core_queueConflictCheckIfOpen path) in
            ret true
        else ret false in
      if deferred then ret true
      else
        (* 2. Check if the file is already exist on the storage. *)
        let* existDoc := readStorage (fun s => st_getStub s path) in
        if match existDoc with Some e => isFolder e | None => false end then
          run _log ("Folder " +:+ path
                    +:+ " is already exist on the storage as a folder")
                   LOG_LEVEL_VERBOSE in
          ret true
        else
          let existOnDB :=
            negb (isTrue (_deleted docEntry) || isTrue (deleted docEntry) || false) in
          let existOnStorage := bool_decide (is_Some existDoc) in
          if negb existOnDB && negb existOnStorage then
            run _log ("File " +:+ path
                      +:+ " seems to be deleted, but already not on storage")
                     LOG_LEVEL_VERBOSE in
            ret true
          else if negb existOnDB && existOnStorage then
            run doStorage (st_deleteVaultItem path) in
            ret true
          else
            let* docRead := readDb (fun d => db_fetchEntryFromMeta d docEntry) in
            match docRead with
            | None =>
                run _log ("File " +:+ path +:+ " is not exist on the database")
                         LOG_LEVEL_VERBOSE in
                ret false
            | Some docRead =>
                let docData := readContent docRead in
                let apply : M bool :=
                  run doStorage (st_ensureDir path) in
                  let* r := callStorage
                              (st_writeFileAuto path docData
                                 (e_ctime docRead, e_mtime docRead)) in
                  run doStorage (st_touched path) in
                  run doStorage (st_triggerFileEvent mode path) in
                  ret r in
                match existDoc with
                | Some existDoc =>
                    if negb force then
                      let shouldApplied := false in
                      let* fresh := bind (readPairs (compareFileFreshness
                                           (Some (inl existDoc))
                                           (Some (inr docEntry)))) liftC in
                      let shouldApplied :=
                        if bool_decide (fresh <> EVEN) then true
                        else shouldApplied in
                      let* shouldApplied :=
                        if shouldApplied then
                          let* readFile := readFileFromStub (inl existDoc) in
                          if isDocContentSame docData (body readFile) then
                            run callPairs (markChangesAreSame (ByEntry docRead)
                                             (e_mtime docRead)
                                             (mtime (stat existDoc))) in
                            ret false
                          else ret true
                        else ret shouldApplied in
                      if negb shouldApplied then
                        run _log ("File " +:+ e_path docRead +:+ " is not changed")
                                 LOG_LEVEL_VERBOSE in
                        ret true
                      else apply
                    else
                      run _log ("File " +:+ e_path docRead +:+ " (new)  "
                                +:+ (if force then " (forced)" else EmptyString))
                               LOG_LEVEL_VERBOSE in
                      apply
                | None =>
                    run _log ("File " +:+ e_path docRead +:+ "  "
                              +:+ (if force then " (forced)" else EmptyString))
                             LOG_LEVEL_VERBOSE in
                    apply
                end
            end
  end.

Definition dbToStorageWithSpecificRev (info : option FileRef) (rev : string)
    (force : bool) : M bool :=
  let* file := resolveFile info in
  match file with
  | None =>
      run _log ("File " +:+ match info with
                            | Some i => showRef i
                            | None => "null"
                            end +:+ " is not exist on the storage")
               LOG_LEVEL_VERBOSE in
      ret false
  | Some file =>
      let* docEntry :=
        readDb (fun d => db_fetchEntryMeta d (inr file) (Some rev) true) in
      match docEntry with
      | None =>
          run _log ("File " +:+ path (stubOf file)
                    +:+ " is not exist on the database") LOG_LEVEL_VERBOSE in
          ret false
      | Some docEntry => dbToStorage (inr docEntry) (Some (inr file)) force
      end
  end.

(** Falls off the end, returning [undefined], when both steps succeed. *)
Definition resolveConflictedByDeletingRevision (info : FileRef) (rev : string)
    : M (option bool) :=
  let path :=
    getStoragePathFromUXFileInfo
      (match info with inl p => ByPath p | inr f => ByStub (stubOf f) end) in
  let* deletedRev := deleteRevisionFromDB info rev in
  if negb (isTrue deletedRev) then
    run _log ("Failed to delete the conflicted revision " +:+ rev +:+ " of "
              +:+ path) LOG_LEVEL_VERBOSE in
    ret (Some false)
  else
    let* applied := dbToStorageWithSpecificRev (Some info) rev true in
    if negb applied then
      run _log ("Failed to apply the resolved revision " +:+ rev +:+ " of "
                +:+ path +:+ " to the storage") LOG_LEVEL_VERBOSE in
      ret (Some false)
    else ret None.

(** The gate on conflicts lets the document through. *)
Definition passesConflictGate (w : World) (path : string) : Prop :=
  db_getConflictedRevs (db w) (inl path) = [] \/
  writeDocumentsIfConflicted (settings w) = true.

(** The document entry is live and its body can be fetched. *)
Definition readable (w : World) (docEntry docRead : Entry) : Prop :=
  isTrue (_deleted docEntry) = false /\ isTrue (deleted docEntry) = false /\
  db_fetchEntryFromMeta (db w) docEntry = Some docRead.

(** The run of [dbToStorage] gets as far as comparing the document with
    a file [existDoc] of the vault. *)
Definition reachesComparison (w : World) (entryInfo : string + Entry)
    (docEntry docRead : Entry) (existDoc : UXFileInfoStub) : Prop :=
  db_fetchEntryMeta (db w)
    (inl match entryInfo with inl p => p | inr e => e_path e end) None true
  = Some docEntry /\
  passesConflictGate w (getPath docEntry) /\
  st_getStub (storage w) (getPath docEntry) = Some existDoc /\
  isFolder existDoc = false /\
  readable w docEntry docRead.

(** [FileEventItem]: the tag and [item.args.file]. *)
Inductive EventType : Type :=
  | CREATE | CHANGED | DELETE | INTERNAL
  | OtherType (tag : string).

Record FileEventItem : Type := mkItem {
  type : EventType;
  args_file : UXFileInfoStub;
}.

Definition showType (t : EventType) : string :=
  match t with
  | CREATE => "CREATE"
  | CHANGED => "CHANGED"
  | DELETE => "DELETE"
  | INTERNAL => "INTERNAL"
  | OtherType tag => tag
  end.

(** [$anyHandlerProcessesFileEvent] *)
Definition anyHandlerProcessesFileEvent (item : FileEventItem)
    : M (option bool) :=
  let type := type item in
  let path := path (args_file item) in
  let* target := readCore (fun c => core_isTargetFile c path) in
  if negb target then
    run _log ("File " +:+ path +:+ " is not the target file") LOG_LEVEL_VERBOSE in
    ret (Some false)
  else if shouldBeIgnored path then
    run _log ("File " +:+ path +:+ " should be ignored") LOG_LEVEL_VERBOSE in
    ret (Some false)
  else
    let lockKey := "processFileEvent-" +:+ path in
    serialized lockKey
      match type with
      | CREATE | CHANGED => storeFileToDB (inr (inl (args_file item))) false false
      | DELETE => deleteFileFromDB (inr (inl (args_file item)))
      | INTERNAL => ret (Some false)
      | OtherType _ =>
          run _log ("Unsupported event type: " +:+ showType type)
                   LOG_LEVEL_VERBOSE in
          ret (Some false)
      end.

(** [$anyProcessReplicatedDoc] *)
Definition anyProcessReplicatedDoc (entry : Entry) : M (option bool) :=
  serialized (e_path entry)
    (let* target := readCore (fun c => core_isTargetFile c (e_path entry)) in
     if negb target then
       run _log ("File " +:+ e_path entry +:+ " is not the target file")
                LOG_LEVEL_VERBOSE in
       ret (Some false)
     else if shouldBeIgnored (e_path entry) then
       run _log ("File " +:+ e_path entry +:+ " should be ignored")
                LOG_LEVEL_VERBOSE in
       ret (Some false)
     else
       let path := getPath entry in
       let* targetFile :=
         readStorage (fun s => st_getStub s (getPathWithoutPrefix entry)) in
       if match targetFile with Some t => isFolder t | None => false end then
         run _log (getPath entry +:+ " is already exist as the folder")
                  LOG_LEVEL_INFO in
         ret (Some true)
       else
         run _log ("Processing " +:+ path +:+ " ("
                   +:+ String.substring 0 8 (_id entry) +:+ ": "
                   +:+ showOpt (String.substring 0 5 <$> _rev entry)
                   +:+ ") :Started...") LOG_LEVEL_VERBOSE in
         (* Before writing (or skipped), merging dialogue should be cancelled. *)
         run emitEvent "conflict-cancelled" path in
         let* r := dbToStorage (inr entry)
                     (match targetFile with
                      | Some t => Some (inr (inl t))
                      | None => None
                      end) false in
         run _log ("Processing " +:+ path +:+ " ("
                   +:+ String.substring 0 8 (_id entry) +:+ " :"
                   +:+ showOpt (String.substring 0 5 <$> _rev entry)
                   +:+ ") : Done") LOG_LEVEL_INFO in
         ret (Some r)).

(** A computation that takes no lock. *)
Definition keepsLocks {A} (m : M A) : Prop :=
  forall w, locks (snd (m w)) = locks w.

(** The descriptor with its body: the one given, or the one the storage
    reads for a stub. *)
Definition bodyOf (file : FileInfo) (s : S) : option UXFileInfo :=
  match file with
  | inr fi => Some fi
  | inl stub => st_readStubContent s stub
  end.

(** The outcome of a single call [f] on the database whose result is
    returned. *)
Definition storeResult (f : D -> bool * D) (w : World)
    : Completion (option bool) * World :=
  (Normal (Some (fst (f (db w)))), withDb (snd (f (db w))) w).

(** A computation that leaves a component of the world as it was,
    whether it returns or throws. *)
Definition preserves {A X} (proj : World -> X) (m : M A) : Prop :=
  forall w, proj (snd (m w)) = proj w.

(** A computation whose exceptions all satisfy [E]. *)
Definition onlyThrows {A} (E : string -> Prop) (m : M A) : Prop :=
  forall w msg, fst (m w) = Throw msg -> E msg.

(** The message of the exception of [readFileFromStub]. *)
Definition missingOnStorage (msg : string) : Prop :=
  exists p : string, msg = "File " +:+ p +:+ " is not exist on the storage".

End Engine.

Arguments World D S C : clear implicits.
Arguments M D S C A : clear implicits.

End ModuleFileHandler.

(** ** In-memory database, storage and core

    Small executable instances of the three service interfaces, on which
    the engine can be run on concrete vaults. *)
Module Mem.
Import Utils ModuleFileHandler.

#[global] Instance byte_eq_dec : EqDecision Byte.byte := Byte.byte_eq_dec.

#[global] Instance DocData_eq_dec : EqDecision DocData.
Proof. solve_decision. Defined.

(** Prefixes are absent, identifiers are paths, paths are normal. *)
#[global] Instance lib : CommonLib := {|
  stripAllPrefixes p := p;
  id2path_base id entry := e_path entry;
  normalizePath p := p;
  shouldBeIgnored p := false;
  isDocContentSame a b := bool_decide (a = b);
  getDocDataAsArray l := l;
  readContent e := DataChunks (data e);
|}.

Fixpoint assoc {A} (k : string) (l : list (string * A)) : option A :=
  match l with
  | [] => None
  | (k', v) :: r => if String.eqb k k' then Some v else assoc k r
  end.

Fixpoint upsert {A} (k : string) (v : A) (l : list (string * A))
    : list (string * A) :=
  match l with
  | [] => [(k, v)]
  | (k', v') :: r =>
      if String.eqb k k' then (k, v) :: r else (k', v') :: upsert k v r
  end.

Fixpoint remove {A} (k : string) (l : list (string * A)) : list (string * A) :=
  match l with
  | [] => []
  | (k', v') :: r =>
      if String.eqb k k' then remove k r else (k', v') :: remove k r
  end.

(** A database: per path, the live leaf revisions, the winner first. *)
Definition MemDB : Type := list (string * list Entry).

Definition refPath (r : FileRef) : string :=
  match r with
  | inl p => p
  | inr f => path (stubOf f)
  end.

Definition hasRev (rev : string) (e : Entry) : bool :=
  match _rev e with
  | Some r => String.eqb r rev
  | None => false
  end.

Definition memFetch (d : MemDB) (r : FileRef) (rev : option string)
    : option Entry :=
  match assoc (refPath r) d with
  | None => None
  | Some revs =>
      match rev with
      | None => head revs
      | Some rv => List.find (hasRev rv) revs
      end
  end.

Definition tombstone (e : Entry) : Entry :=
  mkEntry (_id e) (_rev e) (e_path e) (e_mtime e) (e_ctime e) (e_size e)
          (deleted e) (Some true) [].

Definition memDelete (r : FileRef) (rev : option string) (d : MemDB)
    : bool * MemDB :=
  match assoc (refPath r) d with
  | None => (false, d)
  | Some revs =>
      match rev with
      | None =>
          match revs with
          | [] => (false, d)
          | w :: _ => (true, upsert (refPath r) [tombstone w] d)
          end
      | Some rv =>
          (existsb (hasRev rv) revs,
           upsert (refPath r) (List.filter (fun e => negb (hasRev rv e)) revs) d)
      end
  end.

Definition chunksOf (b : DocData) : list string :=
  match b with
  | DataChunks l => l
  | DataBlob _ => []
  end.

Definition memStore (f : UXFileInfo) (d : MemDB) : bool * MemDB :=
  let p := path (stub f) in
  (true,
   upsert p [mkEntry p (Some "1-new") p (mtime (stat (stub f)))
                     (ctime (stat (stub f))) (size (stat (stub f)))
                     None None (chunksOf (body f))] d).

#[global] Instance memDatabase : DatabaseFileAccess MemDB := {|
  db_fetchEntry d r rev _ _ := memFetch d r rev;
  db_fetchEntryMeta d r rev _ := memFetch d r rev;
  db_fetchEntryFromMeta d e := Some e;
  db_getConflictedRevs d r :=
    match assoc (refPath r) d with
    | Some (_ :: others) => omap _rev others
    | _ => []
    end;
  db_delete := memDelete;
  db_store f _ _ := memStore f;
  db_createChunks f _ _ d := (true, d);
|}.

(** A vault: the files by path, and the notifications posted so far. *)
Record MemStorage : Type := mkStorage {
  files : list (string * UXFileInfo);
  touchedPaths : list string;
  fileEvents : list (string * string);
}.

Definition memWrite (p : string) (d : DocData) (times : Z * Z) (s : MemStorage)
    : bool * MemStorage :=
  (true,
   mkStorage
     (upsert p (mkFile (mkStub p p (mkStat 0 (snd times) (fst times)) false false) d)
             (files s))
     (touchedPaths s) (fileEvents s)).

#[global] Instance memStorage : StorageAccess MemStorage := {|
  st_getFileStub s p := stub <$> assoc p (files s);
  st_getStub s p := stub <$> assoc p (files s);
  st_readStubContent s f := assoc (path f) (files s);
  st_deleteVaultItem p s :=
    mkStorage (remove p (files s)) (touchedPaths s) (fileEvents s);
  st_ensureDir p s := s;
  st_writeFileAuto := memWrite;
  st_touched p s := mkStorage (files s) (touchedPaths s ++ [p]) (fileEvents s);
  st_triggerFileEvent mode p s :=
    mkStorage (files s) (touchedPaths s) (fileEvents s ++ [(mode, p)]);
|}.

(** The core: every path is a target; the queue of conflict checks. *)
Definition MemCore : Type := list string.

#[global] Instance memCore : CoreServices MemCore := {|
  core_isTargetFile c p := true;
  core_queueConflictCheckIfOpen p c := c ++ [p];
|}.

Definition MemWorld : Type := World MemDB MemStorage MemCore.

(** A vault holding one note, and databases holding its document. *)
Definition noteStub (mtime : Z) : UXFileInfoStub :=
  mkStub "note.md" "note.md" (mkStat 3 mtime 0) false false.

Definition localNote (mtime : Z) (text : string) : UXFileInfo :=
  mkFile (noteStub mtime) (DataChunks [text]).

Definition noteRev (rev : string) (mtime : Z) (text : string) : Entry :=
  mkEntry "note.md" (Some rev) "note.md" mtime 0 3 None None [text].

Definition vault (mtime : Z) (text : string) : MemStorage :=
  mkStorage [("note.md", localNote mtime text)] [] [].

Definition cleanDB (mtime : Z) (text : string) : MemDB :=
  [("note.md", [noteRev "2-a" mtime text])].

Definition conflictedDB : MemDB :=
  [("note.md", [noteRev "2-b" 1700000009000 "theirs";
                noteRev "2-a" 1700000007000 "mine"])].

Definition world (d : MemDB) (s : MemStorage) (writeThrough : bool) : MemWorld :=
  mkWorld d s [] (mkSettings writeThrough) ∅ [] [] [].

End Mem.

(** * Properties of the freshness comparator and the equivalence tracker *)
Module UtilsSpec.
Import Utils.

Example toInt32_wraps :
  toInt32 5 = 5 /\ toInt32 (-1) = -1 /\ toInt32 (2 ^ 31) = - 2 ^ 31 /\
  toInt32 (2 ^ 32 + 5) = 5.
Proof. repeat split. Qed.

Example truncInt32_towards_zero :
  truncInt32 3999 2000 = 1 /\ truncInt32 (-1) 2000 = 0 /\
  truncInt32 (-2001) 2000 = -1.
Proof. repeat split. Qed.

Example compareMTime_same_bucket :
  compareMTime 1700000000500 1700000001999 = Normal EVEN.
Proof. reflexivity. Qed.

Example split_prefixed_path :
  split ":" "i:.obsidian/app.json" = ["i"; ".obsidian/app.json"] /\
  join ":" (split ":" "i:.obsidian/app.json") = "i:.obsidian/app.json".
Proof. split; reflexivity. Qed.

Example arrayFromSet_keeps_first :
  arrayFromSet [100; 205; 100; 9999; 205] = [100; 205; 9999].
Proof. reflexivity. Qed.

Example indexOf_first_or_minus_one :
  indexOf [100; 205; 100] 100 = 0 /\ indexOf [100; 205] 205 = 1 /\
  indexOf [100; 205] 7 = -1.
Proof. repeat split. Qed.

Lemma toInt32_small (n : Z) : - 2 ^ 31 <= n < 2 ^ 31 -> toInt32 n = n.
Proof.
  intros Hn. unfold toInt32.
  rewrite Z.mod_small by lia. lia.
Qed.

Lemma toInt32_range (n : Z) : - 2 ^ 31 <= toInt32 n < 2 ^ 31.
Proof.
  unfold toInt32.
  pose proof (Z.mod_pos_bound (n + 2 ^ 31) (2 ^ 32)) as Hb. lia.
Qed.

Lemma truncInt32_nonneg (a : Z) :
  0 <= a -> truncInt32 a resolution = toInt32 (a / 2000).
Proof.
  intros Ha. unfold truncInt32, resolution.
  rewrite Z.quot_div_nonneg by lia. reflexivity.
Qed.

Lemma truncInt32_bucket (a : Z) :
  0 <= a < 2 ^ 31 * 2000 -> truncInt32 a resolution = a / 2000.
Proof.
  intros [Ha Hb]. rewrite truncInt32_nonneg by lia.
  apply toInt32_small. split.
  - pose proof (Z.div_pos a 2000). lia.
  - apply Z.div_lt_upper_bound; lia.
Qed.

Lemma compareMTime_cases (a b : Z) :
  let ta := truncInt32 a resolution * resolution in
  let tb := truncInt32 b resolution * resolution in
  (ta = tb /\ compareMTime a b = Normal EVEN) \/
  (tb < ta /\ compareMTime a b = Normal BASE_IS_NEW) \/
  (ta < tb /\ compareMTime a b = Normal TARGET_IS_NEW).
Proof.
  intros ta tb. unfold compareMTime. fold ta tb.
  destruct (Z.eqb_spec ta tb) as [Heq | Hne].
  - left. auto.
  - destruct (Z.gtb_spec ta tb) as [Hgt | Hle].
    + right. left. auto.
    + right. right. destruct (Z.ltb_spec ta tb); [auto | lia].
Qed.

(** C6 (amended): for non-negative timestamps below 2^53, where the
    division of the code is exact, equal buckets of 2000 give [EVEN]; and
    below 2^31 * 2000, where the 32-bit coercion keeps the bucket, a
    larger bucket on the base side gives [BASE_IS_NEW], and
    [TARGET_IS_NEW] with the arguments exchanged. *)
Theorem compareMTime_buckets (a b : Z) :
  0 <= a < 2 ^ 53 -> 0 <= b < 2 ^ 53 ->
  (a / 2000 = b / 2000 -> compareMTime a b = Normal EVEN) /\
  (a < 2 ^ 31 * 2000 -> b < 2 ^ 31 * 2000 -> b / 2000 < a / 2000 ->
   compareMTime a b = Normal BASE_IS_NEW /\
   compareMTime b a = Normal TARGET_IS_NEW).
Proof.
  intros [Ha _] [Hb _]. split.
  - intros Heq.
    destruct (compareMTime_cases a b) as [[_ E] | [[Hlt _] | [Hlt _]]]; [exact E | |];
      rewrite !truncInt32_nonneg, Heq in Hlt by lia; lia.
  - intros Ha' Hb' Hlt. split.
    + destruct (compareMTime_cases a b) as [[Hc _] | [[_ E] | [Hc _]]]; [| exact E |];
        rewrite !truncInt32_bucket in Hc by lia; unfold resolution in Hc; lia.
    + destruct (compareMTime_cases b a) as [[Hc _] | [[Hc _] | [_ E]]]; [| | exact E];
        rewrite !truncInt32_bucket in Hc by lia; unfold resolution in Hc; lia.
Qed.

Lemma compareMTime_buckets_witness :
  compareMTime 1700000003999 1700000002000 = Normal EVEN /\
  compareMTime 1700000004000 1700000003999 = Normal BASE_IS_NEW /\
  compareMTime 1700000003999 1700000004000 = Normal TARGET_IS_NEW.
Proof.
  split.
  - destruct (compareMTime_buckets 1700000003999 1700000002000) as [Heven _];
      [lia | lia |].
    apply Heven. reflexivity.
  - destruct (compareMTime_buckets 1700000004000 1700000003999) as [_ Hnew];
      [lia | lia |].
    apply Hnew; [lia | lia | reflexivity].
Defined.

(** The claim of C6 as first stated fails twice: before the epoch the
    quotient is truncated towards zero, not floored; and from 2^31 * 2000
    on the 32-bit coercion wraps the bucket around. *)
Lemma compareMTime_buckets_counterexample :
  ((-1) / 2000 = (-2000) / 2000 /\
   compareMTime (-1) (-2000) = Normal BASE_IS_NEW) /\
  (0 / 2000 < 4294967296000 / 2000 /\
   compareMTime 4294967296000 0 = Normal TARGET_IS_NEW).
Proof. repeat split. Qed.

(** C10: [compareMTime] returns one of the three verdicts on every pair of
    timestamps; the trailing [throw] is never reached. *)
Theorem compareMTime_total (a b : Z) :
  (exists v : Freshness, compareMTime a b = Normal v) /\
  (forall msg, compareMTime a b <> Throw msg).
Proof.
  destruct (compareMTime_cases a b) as [[_ E] | [[_ E] | [_ E]]];
    rewrite E; split; eauto; discriminate.
Qed.

Lemma compareMTime_total_witness :
  (exists v : Freshness, compareMTime 1700000004000 (-5) = Normal v) /\
  compareMTime 1700000004000 (-5) <> Throw "Unexpected error".
Proof.
  destruct (compareMTime_total 1700000004000 (-5)) as [Hv Hthrow].
  split; [exact Hv | exact (Hthrow "Unexpected error")].
Defined.

Section Tracker.
Context `{CommonLib}.

(** C8: absence on both sides is [EVEN]; otherwise the side that exists
    is the newer one. *)
Theorem compareFileFreshness_absent (x : FileOrEntry) (s : PairStore) :
  compareFileFreshness None None s = Normal EVEN /\
  compareFileFreshness None (Some x) s = Normal TARGET_IS_NEW /\
  compareFileFreshness (Some x) None s = Normal BASE_IS_NEW.
Proof. repeat split. Qed.

Lemma indexOf_elem (l : list Z) (e : Z) :
  (e ∈ l -> 0 <= indexOf l e) /\ (e ∉ l -> indexOf l e = -1).
Proof.
  induction l as [| x r [IHin IHout]]; simpl.
  - split; [intros Hin; inversion Hin | reflexivity].
  - destruct (Z.eqb_spec x e) as [-> | Hne].
    + split; [lia | intros Hn; exfalso; apply Hn; left].
    + split.
      * intros Hin. apply elem_of_cons in Hin as [-> | Hin]; [congruence |].
        specialize (IHin Hin).
        destruct (Z.eqb_spec (indexOf r e) (-1)); lia.
      * intros Hn. rewrite IHout; [reflexivity |].
        intros Hin. apply Hn. right. exact Hin.
Qed.

Lemma indexOf_found (l : list Z) (e : Z) :
  negb (indexOf l e =? -1) = true <-> e ∈ l.
Proof.
  destruct (indexOf_elem l e) as [Hin Hout].
  rewrite negb_true_iff, Z.eqb_neq. split.
  - intros Hne. destruct (decide (e ∈ l)) as [|Hn]; [assumption |].
    specialize (Hout Hn). congruence.
  - intros He. specialize (Hin He). lia.
Qed.

Lemma isMarkedAsSameChanges_iff (file : FileArg) (mtimes : list Z) (s : PairStore) :
  isMarkedAsSameChanges file mtimes s = Some EVEN <->
  forall e, e ∈ mtimes -> e ∈ store_get s (getKey file) [].
Proof.
  unfold isMarkedAsSameChanges.
  destruct (forallb _ mtimes) eqn:E.
  - split; [intros _ | reflexivity].
    rewrite forallb_forall in E. intros e He.
    apply indexOf_found, E. apply list_elem_of_In. exact He.
  - split; [discriminate |]. intros Hall. exfalso.
    assert (forallb (fun e => negb (indexOf (store_get s (getKey file) []) e =? -1))
                    mtimes = true) as Ht; [| congruence].
    apply forallb_forall. intros e He. apply indexOf_found, Hall.
    apply list_elem_of_In. exact He.
Qed.

Lemma isMarkedAsSameChanges_None (file : FileArg) (mtimes : list Z) (s : PairStore) :
  isMarkedAsSameChanges file mtimes s = None <->
  exists e, e ∈ mtimes /\ e ∉ store_get s (getKey file) [].
Proof.
  unfold isMarkedAsSameChanges.
  destruct (forallb _ mtimes) eqn:E.
  - split; [discriminate |]. intros (e & He & Hn). exfalso.
    rewrite forallb_forall in E. apply Hn, indexOf_found, E.
    apply list_elem_of_In. exact He.
  - split; [intros _ | reflexivity].
    apply not_true_iff_false in E.
    destruct (decide (Exists (fun e => e ∉ store_get s (getKey file) []) mtimes))
      as [Hex | Hnex].
    + apply Exists_exists in Hex. exact Hex.
    + exfalso. apply E. apply forallb_forall. intros e He.
      apply indexOf_found.
      destruct (decide (e ∈ store_get s (getKey file) [])) as [|Hn]; [assumption |].
      exfalso. apply Hnex. apply Exists_exists. exists e. split; [| exact Hn].
      apply list_elem_of_In. exact He.
Qed.

Lemma elem_of_uniqFrom (seen l : list Z) (x : Z) :
  x ∈ uniqFrom seen l <-> x ∈ l /\ x ∉ seen.
Proof.
  revert seen. induction l as [| y r IH]; intros seen; simpl.
  - split; [intros Hin; inversion Hin | intros [Hin _]; inversion Hin].
  - case_bool_decide as Hy.
    + rewrite IH, elem_of_cons. split.
      * intros [Hr Hs]. auto.
      * intros [[-> | Hr] Hs]; [contradiction | auto].
    + rewrite elem_of_cons, IH, !elem_of_cons. split.
      * intros [-> | [Hr Hs]]; [auto |]. split; [auto |].
        intros Hin. apply Hs. right. exact Hin.
      * intros [[-> | Hr] Hs]; [auto |].
        destruct (decide (x = y)) as [-> | Hne]; [auto |].
        right. split; [exact Hr |]. intros [-> | Hin]; [congruence | contradiction].
Qed.

Lemma elem_of_arrayFromSet (l : list Z) (x : Z) : x ∈ arrayFromSet l <-> x ∈ l.
Proof.
  unfold arrayFromSet. rewrite elem_of_uniqFrom. split; [tauto |].
  intros Hin. split; [exact Hin | apply not_elem_of_nil].
Qed.

Lemma some_intersects (pairs : list Z) (t1 t2 : Z) :
  existsb (fun e => (e =? t1) || (e =? t2)) pairs = true <->
  exists e, e ∈ pairs /\ (e = t1 \/ e = t2).
Proof.
  rewrite existsb_exists. split.
  - intros (e & He & Hor). exists e. split; [apply list_elem_of_In; exact He |].
    apply orb_true_iff in Hor as [E | E]; apply Z.eqb_eq in E; auto.
  - intros (e & He & Hor). exists e. split; [apply list_elem_of_In; exact He |].
    apply orb_true_iff. destruct Hor as [-> | ->]; rewrite Z.eqb_refl; auto.
Qed.

Lemma store_get_insert (s : PairStore) (key : string) (v def : list Z) :
  store_get (<[key := v]> s) key def = v.
Proof. unfold store_get, PairStore in *. rewrite lookup_insert_eq. reflexivity. Qed.

Lemma store_get_insert_ne (s : PairStore) (key key' : string) (v def : list Z) :
  key <> key' -> store_get (<[key := v]> s) key' def = store_get s key' def.
Proof.
  intros Hne. unfold store_get, PairStore in *.
  rewrite lookup_insert_ne by exact Hne. reflexivity.
Qed.

(** What a mark that is not the early exit leaves under the key. *)
Lemma markChangesAreSame_elem (file : FileArg) (t1 t2 : Z) (s : PairStore) :
  t1 <> t2 ->
  let old := store_get s (getKey file) [] in
  let new := store_get (snd (markChangesAreSame file t1 t2 s)) (getKey file) [] in
  t1 ∈ new /\ t2 ∈ new /\
  ((exists e, e ∈ old /\ (e = t1 \/ e = t2)) -> forall x, x ∈ old -> x ∈ new).
Proof.
  intros Hne old new. subst new. unfold markChangesAreSame.
  apply Z.eqb_neq in Hne. rewrite Hne. fold old.
  destruct (existsb _ old) eqn:E; simpl; rewrite store_get_insert.
  - repeat split.
    + apply elem_of_arrayFromSet. rewrite elem_of_app, elem_of_cons. auto.
    + apply elem_of_arrayFromSet. rewrite elem_of_app, !elem_of_cons. auto.
    + intros _ x Hx. apply elem_of_arrayFromSet. rewrite elem_of_app. auto.
  - repeat split; [left | right; left |].
    intros Hex. apply some_intersects in Hex. congruence.
Qed.

(** C7: a mark with equal timestamps changes nothing; otherwise the pair
    is merged into the set of the path when that set holds one of the two
    timestamps, and a fresh pair replaces the set when it holds neither.
    So a pair is equivalent once marked, and stays so, together with every
    timestamp later marked with one of its members. *)
Theorem markChangesAreSame_transitive_merge
    (file : FileArg) (s : PairStore) (t1 t2 t3 : Z) :
  let key := getKey file in
  let old := store_get s key [] in
  markChangesAreSame file t1 t1 s = (Some true, s) /\
  (t1 <> t2 ->
   ((exists e, e ∈ old /\ (e = t1 \/ e = t2)) ->
    markChangesAreSame file t1 t2 s
    = (None, <[key := arrayFromSet (old ++ [t1; t2])]> s) /\
    forall x, x ∈ arrayFromSet (old ++ [t1; t2]) <-> x ∈ old \/ x = t1 \/ x = t2) /\
   ((forall e, e ∈ old -> e <> t1 /\ e <> t2) ->
    markChangesAreSame file t1 t2 s = (None, <[key := [t1; t2]]> s)) /\
   let s1 := snd (markChangesAreSame file t1 t2 s) in
   let s2 := snd (markChangesAreSame file t2 t3 s1) in
   isMarkedAsSameChanges file [t1; t2] s1 = Some EVEN /\
   isMarkedAsSameChanges file [t1; t2] s2 = Some EVEN /\
   isMarkedAsSameChanges file [t1; t3] s2 = Some EVEN).
Proof.
  intros key old. split.
  { unfold markChangesAreSame. rewrite Z.eqb_refl. reflexivity. }
  intros Hne. split; [| split].
  - intros Hex. split.
    + unfold markChangesAreSame. apply Z.eqb_neq in Hne. rewrite Hne.
      fold key old. apply some_intersects in Hex. rewrite Hex. reflexivity.
    + intros x. rewrite elem_of_arrayFromSet, elem_of_app, elem_of_cons,
        list_elem_of_singleton. reflexivity.
  - intros Hnone. unfold markChangesAreSame. apply Z.eqb_neq in Hne. rewrite Hne.
    fold key old. destruct (existsb _ old) eqn:E; [| reflexivity].
    apply some_intersects in E as (e & He & Hor).
    destruct (Hnone e He) as [N1 N2]. destruct Hor; contradiction.
  - intros s1 s2.
    destruct (markChangesAreSame_elem file t1 t2 s Hne) as (H1 & H2 & _).
    fold s1 in H1, H2.
    assert (isMarkedAsSameChanges file [t1; t2] s1 = Some EVEN) as M1.
    { apply isMarkedAsSameChanges_iff. intros e He.
      apply elem_of_cons in He as [-> | He]; [exact H1 |].
      apply list_elem_of_singleton in He as ->. exact H2. }
    split; [exact M1 |].
    destruct (decide (t2 = t3)) as [<- | Hne23].
    + assert (s2 = s1) as ->.
      { subst s2. unfold markChangesAreSame. rewrite Z.eqb_refl. reflexivity. }
      split; exact M1.
    + destruct (markChangesAreSame_elem file t2 t3 s1 Hne23) as (_ & H3 & Hkeep).
      fold s2 in H3, Hkeep.
      assert (forall x, x ∈ store_get s1 (getKey file) [] ->
                        x ∈ store_get s2 (getKey file) []) as Hk.
      { apply Hkeep. exists t2. auto. }
      split; apply isMarkedAsSameChanges_iff; intros e He;
        apply elem_of_cons in He as [-> | He]; auto;
        apply list_elem_of_singleton in He as ->; auto.
Qed.

Lemma runOp_keeps_cleared (key : string) (op : TrackerOp) (s : PairStore) :
  registersFor key op = false -> s !! key = None -> runOp op s !! key = None.
Proof.
  unfold PairStore in *. intros Hreg Hs.
  destruct op as [f m1 m2 | f]; cbn [runOp registersFor] in *.
  - unfold markChangesAreSame.
    destruct (Z.eqb_spec m1 m2) as [Heq | Hne]; [exact Hs |].
    rewrite andb_false_iff in Hreg. destruct Hreg as [Hk | Hm].
    + apply bool_decide_eq_false in Hk.
      destruct (existsb _ _); cbn [snd]; unfold PairStore;
        rewrite lookup_insert_ne by exact Hk; exact Hs.
    + discriminate Hm.
  - unfold unmarkChanges, PairStore. rewrite lookup_delete. case_decide; [reflexivity | exact Hs].
Qed.

Lemma runOps_keep_cleared (key : string) (ops : list TrackerOp) (s : PairStore) :
  forallb (fun op => negb (registersFor key op)) ops = true ->
  s !! key = None -> runOps ops s !! key = None.
Proof.
  revert s. induction ops as [| op ops IH]; intros s Hall Hs; simpl in *.
  - exact Hs.
  - apply andb_true_iff in Hall as [Hop Hall].
    apply IH; [exact Hall |].
    apply runOp_keeps_cleared; [| exact Hs].
    apply negb_true_iff. exact Hop.
Qed.

(** C9 (amended): after [unmarkChanges] on a path, a query on that path
    with a non-empty list of timestamps finds nothing, and keeps finding
    nothing through any calls that register no pair for the path. *)
Theorem unmarkChanges_clears
    (file : FileArg) (s : PairStore) (ops : list TrackerOp) (mtimes : list Z) :
  mtimes <> [] ->
  forallb (fun op => negb (registersFor (getKey file) op)) ops = true ->
  isMarkedAsSameChanges file mtimes (runOps ops (unmarkChanges file s)) = None.
Proof.
  intros Hne Hops. apply isMarkedAsSameChanges_None.
  destruct mtimes as [| e r]; [congruence |].
  exists e. split; [left |].
  unfold store_get. rewrite runOps_keep_cleared; [apply not_elem_of_nil | exact Hops |].
  unfold unmarkChanges, PairStore in *. apply lookup_delete_eq.
Qed.

End Tracker.

Lemma markChangesAreSame_transitive_merge_witness :
  let s1 := snd (markChangesAreSame (ByPath "note.md") 100 205 ∅) in
  let s2 := snd (markChangesAreSame (ByPath "note.md") 205 9999 s1) in
  isMarkedAsSameChanges (ByPath "note.md") [100; 205] s1 = Some EVEN /\
  isMarkedAsSameChanges (ByPath "note.md") [100; 205] s2 = Some EVEN /\
  isMarkedAsSameChanges (ByPath "note.md") [100; 9999] s2 = Some EVEN.
Proof.
  apply (markChangesAreSame_transitive_merge (ByPath "note.md") ∅ 100 205 9999).
  lia.
Defined.

Lemma unmarkChanges_clears_witness :
  isMarkedAsSameChanges (ByPath "note.md") [100; 205]
    (runOps [OpMark (ByPath "other.md") 1 2; OpMark (ByPath "note.md") 7 7]
       (unmarkChanges (ByPath "note.md")
          (snd (markChangesAreSame (ByPath "note.md") 100 205 ∅)))) = None.
Proof.
  apply (unmarkChanges_clears (ByPath "note.md")
           (snd (markChangesAreSame (ByPath "note.md") 100 205 ∅))
           [OpMark (ByPath "other.md") 1 2; OpMark (ByPath "note.md") 7 7]
           [100; 205]).
  - discriminate.
  - reflexivity.
Defined.

(** The claim of C9 as first stated fails on the empty list of
    timestamps, which [every] accepts whatever the registry holds. *)
Lemma unmarkChanges_clears_counterexample :
  isMarkedAsSameChanges (ByPath "note.md") []
    (unmarkChanges (ByPath "note.md")
       (snd (markChangesAreSame (ByPath "note.md") 100 205 ∅))) = Some EVEN.
Proof. reflexivity. Qed.

End UtilsSpec.

(** * Properties of the reconciliation engine *)
Module FileHandlerSpec.
Import Utils ModuleFileHandler.

Section Engine.
Context `{CommonLib}.
Context {D S C : Type}.
Context `{DatabaseFileAccess D} `{StorageAccess S} `{CoreServices C}.

Abbreviation World := (World D S C).
Abbreviation M := (M D S C).

(** Unfolds the plumbing of the monad. *)
Ltac unfold_monad :=
  unfold bind, ret, throw, liftC, resolveFile, readDb, callDb, readStorage,
    callStorage, doStorage, readCore, doCore, readSettings, readPairs,
    callPairs, _log, emitEvent, serialized in *.

(** One step of a run: the equations of [bind] on each primitive. *)
Lemma bind_ret {A B} (a : A) (k : A -> M B) (w : World) :
  bind (ret a) k w = k a w.
Proof. reflexivity. Qed.

Lemma bind_assoc {A B E} (m : M A) (f : A -> M B) (g : B -> M E) (w : World) :
  bind (bind m f) g w = bind m (fun x => bind (f x) g) w.
Proof. unfold bind. destruct (m w) as [[a | msg] w']; reflexivity. Qed.

Lemma bind_liftC_Normal {A B} (a : A) (k : A -> M B) (w : World) :
  bind (liftC (Normal a)) k w = k a w.
Proof. reflexivity. Qed.

Lemma bind_resolveFile {B} (info : option FileRef) (k : option FileInfo -> M B)
    (w : World) :
  bind (resolveFile info) k w = k (fileOf info (storage w)) w.
Proof. reflexivity. Qed.

Lemma bind_readDb {A B} (f : D -> A) (k : A -> M B) (w : World) :
  bind (readDb f) k w = k (f (db w)) w.
Proof. reflexivity. Qed.

Lemma bind_callDb {A B} (f : D -> A * D) (k : A -> M B) (w : World) :
  bind (callDb f) k w = k (fst (f (db w))) (withDb (snd (f (db w))) w).
Proof. reflexivity. Qed.

Lemma bind_readStorage {A B} (f : S -> A) (k : A -> M B) (w : World) :
  bind (readStorage f) k w = k (f (storage w)) w.
Proof. reflexivity. Qed.

Lemma bind_callStorage {A B} (f : S -> A * S) (k : A -> M B) (w : World) :
  bind (callStorage f) k w
  = k (fst (f (storage w))) (withStorage (snd (f (storage w))) w).
Proof. reflexivity. Qed.

Lemma bind_doStorage {B} (f : S -> S) (k : unit -> M B) (w : World) :
  bind (doStorage f) k w = k tt (withStorage (f (storage w)) w).
Proof. reflexivity. Qed.

Lemma bind_readCore {A B} (f : C -> A) (k : A -> M B) (w : World) :
  bind (readCore f) k w = k (f (core w)) w.
Proof. reflexivity. Qed.

Lemma bind_doCore {B} (f : C -> C) (k : unit -> M B) (w : World) :
  bind (doCore f) k w = k tt (withCore (f (core w)) w).
Proof. reflexivity. Qed.

Lemma bind_readSettings {A B} (f : Settings -> A) (k : A -> M B) (w : World) :
  bind (readSettings f) k w = k (f (settings w)) w.
Proof. reflexivity. Qed.

Lemma bind_readPairs {A B} (f : PairStore -> A) (k : A -> M B) (w : World) :
  bind (readPairs f) k w = k (f (pairs w)) w.
Proof. reflexivity. Qed.

Lemma bind_callPairs {A B} (f : PairStore -> A * PairStore) (k : A -> M B)
    (w : World) :
  bind (callPairs f) k w
  = k (fst (f (pairs w))) (withPairs (snd (f (pairs w))) w).
Proof. reflexivity. Qed.

Lemma bind_log {B} (msg : string) (level : LogLevel) (k : unit -> M B)
    (w : World) :
  bind (_log msg level) k w = k tt (withLogs (logs w ++ [(msg, level)]) w).
Proof. reflexivity. Qed.

Lemma bind_emitEvent {B} (name arg : string) (k : unit -> M B) (w : World) :
  bind (emitEvent name arg) k w
  = k tt (withEvents (events w ++ [(name, arg)]) w).
Proof. reflexivity. Qed.

Lemma run_ret {A} (a : A) (w : World) : ret a w = (Normal a, w).
Proof. reflexivity. Qed.

(** Projections of an updated world. *)
Ltac world_simpl :=
  cbn [db storage core settings pairs logs events locks
       withDb withStorage withCore withPairs withLogs withEvents withLocks
       fst snd] in *.

Ltac mstep :=
  first
    [ rewrite bind_assoc | rewrite bind_ret | rewrite bind_liftC_Normal
    | rewrite bind_resolveFile
    | rewrite bind_readDb | rewrite bind_callDb
    | rewrite bind_readStorage | rewrite bind_callStorage
    | rewrite bind_doStorage
    | rewrite bind_readCore | rewrite bind_doCore
    | rewrite bind_readSettings
    | rewrite bind_readPairs | rewrite bind_callPairs
    | rewrite bind_log | rewrite bind_emitEvent | rewrite run_ret ];
  cbv beta iota zeta.

Lemma length_zero_false :
  (Z.of_nat (List.length (@nil string)) >? 0) = false.
Proof. reflexivity. Qed.

Lemma length_pos_nonempty {A} (l : list A) :
  l <> [] -> (Z.of_nat (List.length l) >? 0) = true.
Proof.
  intros Hl. destruct l; [congruence |].
  apply Z.gtb_lt. simpl. lia.
Qed.

(** C1: with a conflicting revision on the path and writing through
    conflicts switched off, [dbToStorage] queues the path for the conflict
    check, leaves storage (and the database) as they were, and returns
    [true]. *)
Theorem dbToStorage_conflict_deferred
    (entryInfo : string + Entry) (info : option FileRef) (force : bool)
    (w : World) (docEntry : Entry) :
  db_fetchEntryMeta (db w)
    (inl match entryInfo with inl p => p | inr e => e_path e end) None true
  = Some docEntry ->
  db_getConflictedRevs (db w) (inl (getPath docEntry)) <> [] ->
  writeDocumentsIfConflicted (settings w) = false ->
  dbToStorage entryInfo info force w
  = (Normal true,
     withCore (core_queueConflictCheckIfOpen (getPath docEntry) (core w)) w) /\
  storage (snd (dbToStorage entryInfo info force w)) = storage w.
Proof.
  intros Hmeta Hrevs Hset.
  assert (dbToStorage entryInfo info force w
          = (Normal true,
             withCore (core_queueConflictCheckIfOpen (getPath docEntry) (core w)) w))
    as E.
  { unfold dbToStorage. unfold_monad.
    destruct entryInfo as [p | e]; cbn in Hmeta |- *; rewrite Hmeta;
      rewrite (length_pos_nonempty _ Hrevs), Hset; reflexivity. }
  split; [exact E | rewrite E; reflexivity].
Qed.

(** C4: [deleteFileFromDB] on a live document passes the entry's own
    revision to the delete primitive when the path has conflicting
    revisions, and deletes the document outright when it has none; on an
    absent or already deleted document it returns [false] and leaves the
    database as it was. *)
Theorem deleteFileFromDB_conflict_asymmetry
    (info : FileRef) (w : World) (file : FileInfo) :
  fileOf (Some info) (storage w) = Some file ->
  isInternal (stubOf file) = false ->
  let entry := db_fetchEntry (db w) (inr file) None true true in
  let revs := db_getConflictedRevs (db w) (inr file) in
  (forall e, entry = Some e ->
     isTrue (deleted e) = false -> isTrue (_deleted e) = false ->
     (revs <> [] ->
      deleteFileFromDB info w
      = (Normal (Some (fst (db_delete (inr file) (_rev e) (db w)))),
         withDb (snd (db_delete (inr file) (_rev e) (db w))) w)) /\
     (revs = [] ->
      deleteFileFromDB info w
      = (Normal (Some (fst (db_delete (inr file) None (db w)))),
         withDb (snd (db_delete (inr file) None (db w))) w))) /\
  ((entry = None \/
    exists e, entry = Some e /\
              (isTrue (deleted e) = true \/ isTrue (_deleted e) = true)) ->
   fst (deleteFileFromDB info w) = Normal (Some false) /\
   db (snd (deleteFileFromDB info w)) = db w /\
   storage (snd (deleteFileFromDB info w)) = storage w).
Proof.
  intros Hfile Hint entry revs. split.
  - intros e He Hd1 Hd2. subst entry revs.
    split; intros Hrevs; unfold deleteFileFromDB; unfold_monad;
      rewrite Hfile, Hint, He; cbn; rewrite Hd1, Hd2; cbn.
    + rewrite (length_pos_nonempty _ Hrevs). reflexivity.
    + rewrite Hrevs. reflexivity.
  - intros Habs. subst entry.
    assert (liveEntry (db_fetchEntry (db w) (inr file) None true true) = None) as Hl.
    { destruct Habs as [-> | (e & -> & [Hd | Hd])]; cbn; [reflexivity | |];
        rewrite Hd; [reflexivity | rewrite orb_true_r; reflexivity]. }
    unfold deleteFileFromDB; unfold_monad.
    rewrite Hfile, Hint, Hl. cbn. auto.
Qed.

Lemma bind_fetchEntryMeta {B} (entryInfo : string + Entry) (docEntry : Entry)
    (k : option Entry -> M B) (w : World) :
  db_fetchEntryMeta (db w)
    (inl match entryInfo with inl p => p | inr e => e_path e end) None true
  = Some docEntry ->
  bind (match entryInfo with
        | inl p => readDb (fun d => db_fetchEntryMeta d (inl p) None true)
        | inr e => readDb (fun d => db_fetchEntryMeta d (inl (e_path e)) None true)
        end) k w
  = k (Some docEntry) w.
Proof. intros Hmeta. destruct entryInfo; mstep; rewrite Hmeta; reflexivity. Qed.

Lemma bind_conflictGate {B} (path : string) (k : bool -> M B) (w : World) :
  passesConflictGate w path ->
  bind (if Z.of_nat (List.length (db_getConflictedRevs (db w) (inl path))) >? 0
        then bind (readSettings writeDocumentsIfConflicted)
               (fun writeThrough =>
                  if writeThrough then ret false
                  else bind (doCore (core_queueConflictCheckIfOpen path))
                         (fun _ => ret true))
        else ret false) k w
  = k false w.
Proof.
  intros [Hnone | Hthrough].
  - rewrite Hnone, length_zero_false. reflexivity.
  - destruct (Z.of_nat _ >? 0); [| reflexivity].
    mstep. mstep. rewrite Hthrough. reflexivity.
Qed.

(** Runs [dbToStorage] up to the lookup of the file in the vault. *)
Ltac to_vault_lookup Hmeta Hgate :=
  unfold dbToStorage; mstep;
  rewrite (bind_fetchEntryMeta _ _ _ _ Hmeta); cbv beta iota zeta; mstep;
  rewrite (bind_conflictGate _ _ _ Hgate); cbv beta iota zeta; mstep.

(** With [force] set, a readable document that passes the gate and does
    not meet a folder is applied to storage. *)
Lemma dbToStorage_forced
    (entryInfo : string + Entry) (info : option FileRef) (w : World)
    (docEntry docRead : Entry) :
  db_fetchEntryMeta (db w)
    (inl match entryInfo with inl p => p | inr e => e_path e end) None true
  = Some docEntry ->
  passesConflictGate w (getPath docEntry) ->
  (forall f, st_getStub (storage w) (getPath docEntry) = Some f ->
             isFolder f = false) ->
  readable w docEntry docRead ->
  let mode := match fileOf info (storage w) with
              | None => "create" | Some _ => "modify" end in
  let r := dbToStorage entryInfo info true w in
  fst r = Normal (fst (applyToStorage mode (getPath docEntry) docRead (storage w)))
  /\ storage (snd r)
     = snd (applyToStorage mode (getPath docEntry) docRead (storage w)).
Proof.
  intros Hmeta Hgate Hfolder (Hd1 & Hd2 & Hread) mode r. subst r mode.
  unfold applyToStorage. to_vault_lookup Hmeta Hgate.
  destruct (st_getStub (storage w) (getPath docEntry)) as [f |] eqn:Hstub;
    [rewrite (Hfolder f eq_refl) |];
    rewrite Hd1, Hd2; cbn [negb orb andb]; mstep; rewrite Hread;
    repeat mstep; world_simpl; auto.
Qed.

(** C2: what [dbToStorage] does, without [force], with a readable
    document and a file of the vault.  When the freshness comparison is
    [EVEN] it returns [true] at once: the file is not read, nothing is
    written, whatever the two bodies are.  When the comparison is not
    [EVEN] it reads the file and compares the bodies: equal bodies mark
    the two timestamps as the same change and nothing is written, and
    different bodies are written to storage. *)
Theorem dbToStorage_freshness_gate
    (entryInfo : string + Entry) (info : option FileRef) (w : World)
    (docEntry docRead : Entry) (existDoc : UXFileInfoStub) :
  reachesComparison w entryInfo docEntry docRead existDoc ->
  let fresh := compareFileFreshness (Some (inl existDoc)) (Some (inr docEntry))
                 (pairs w) in
  let unchanged :=
    withLogs (logs w ++ [("File " +:+ e_path docRead +:+ " is not changed",
                          LOG_LEVEL_VERBOSE)]) in
  let mode := match fileOf info (storage w) with
              | None => "create" | Some _ => "modify" end in
  (fresh = Normal EVEN ->
   dbToStorage entryInfo info false w = (Normal true, unchanged w)) /\
  (forall (v : Freshness) (readFile : UXFileInfo),
     fresh = Normal v -> v <> EVEN ->
     st_readStubContent (storage w) existDoc = Some readFile ->
     (isDocContentSame (readContent docRead) (body readFile) = true ->
      dbToStorage entryInfo info false w
      = (Normal true,
         unchanged
           (withPairs (snd (markChangesAreSame (ByEntry docRead) (e_mtime docRead)
                              (mtime (stat existDoc)) (pairs w))) w))) /\
     (isDocContentSame (readContent docRead) (body readFile) = false ->
      fst (dbToStorage entryInfo info false w)
      = Normal (fst (applyToStorage mode (getPath docEntry) docRead (storage w)))
      /\ storage (snd (dbToStorage entryInfo info false w))
         = snd (applyToStorage mode (getPath docEntry) docRead (storage w)))).
Proof.
  intros (Hmeta & Hgate & Hstub & Hfolder & Hd1 & Hd2 & Hread) fresh unchanged mode.
  subst fresh unchanged mode.
  split.
  - intros Hfresh. to_vault_lookup Hmeta Hgate.
    rewrite Hstub, Hfolder, Hd1, Hd2. cbn [negb orb andb]. mstep. rewrite Hread.
    cbv beta iota zeta. cbn [negb]. mstep. mstep. rewrite Hfresh. mstep.
    rewrite (bool_decide_eq_false_2 (EVEN <> EVEN)) by auto.
    repeat mstep. reflexivity.
  - intros v readFile Hfresh Hv Hcontent. split; intros Hsame.
    + to_vault_lookup Hmeta Hgate.
      rewrite Hstub, Hfolder, Hd1, Hd2. cbn [negb orb andb]. mstep. rewrite Hread.
      cbv beta iota zeta. cbn [negb]. mstep. mstep. rewrite Hfresh. mstep.
      rewrite (bool_decide_eq_true_2 (v <> EVEN)) by exact Hv.
      cbv beta iota zeta. unfold readFileFromStub. mstep. mstep. mstep.
      rewrite Hcontent. cbv beta iota zeta. mstep. rewrite Hsame.
      repeat mstep. reflexivity.
    + to_vault_lookup Hmeta Hgate.
      rewrite Hstub, Hfolder, Hd1, Hd2. cbn [negb orb andb]. mstep. rewrite Hread.
      cbv beta iota zeta. cbn [negb]. mstep. mstep. rewrite Hfresh. mstep.
      rewrite (bool_decide_eq_true_2 (v <> EVEN)) by exact Hv.
      cbv beta iota zeta. unfold readFileFromStub. mstep. mstep. mstep.
      rewrite Hcontent. cbv beta iota zeta. mstep. rewrite Hsame.
      repeat mstep. unfold applyToStorage. world_simpl. auto.
Qed.

(** The sibling direction: on an [EVEN] comparison [storeFileToDB] does
    compare the bodies, and stores the file when they differ. *)
Lemma storeFileToDB_even_compares (file : UXFileInfo) (w : World) (entry : Entry) :
  isInternal (stub file) = false ->
  db_fetchEntry (db w) (inr (inr file)) None true true = Some entry ->
  isTrue (deleted entry) = false -> isTrue (_deleted entry) = false ->
  compareFileFreshness (Some (inl (stub file))) (Some (inr entry)) (pairs w)
  = Normal EVEN ->
  isDocContentSame (DataChunks (getDocDataAsArray (data entry))) (body file)
  = false ->
  storeFileToDB (inr (inr file)) false false w
  = (Normal (Some (fst (db_store file (Some false) (Some true) (db w)))),
     withDb (snd (db_store file (Some false) (Some true) (db w))) w).
Proof.
  intros Hint Hentry Hd1 Hd2 Hfresh Hdiff.
  unfold storeFileToDB. mstep. cbn [fileOf stubOf]. rewrite Hint.
  cbv beta iota. mstep. unfold FileRef, FileInfo in *.
  rewrite Hentry. cbn [liveEntry]. rewrite Hd1, Hd2. cbn [orb negb andb].
  mstep. mstep. rewrite Hfresh. mstep.
  rewrite (bool_decide_eq_false_2 (EVEN <> EVEN)) by auto.
  cbn [negb readFileFromStub]. repeat mstep. rewrite Hdiff.
  repeat mstep. reflexivity.
Qed.

(** C5: [dbToStorage] looks the document up again by the path of the
    entry it is given and with no revision, so two entries with the same
    path are treated alike; hence [dbToStorageWithSpecificRev], whatever
    the revision asked for, applies the document the lookup by path
    returns, and writes the body of that one. *)
Theorem dbToStorage_resolves_winner :
  (forall (e1 e2 : Entry) (info : option FileRef) (force : bool) (w : World),
     e_path e1 = e_path e2 ->
     dbToStorage (inr e1) info force w = dbToStorage (inr e2) info force w) /\
  (forall (info : option FileRef) (file : FileInfo) (rev : string)
          (force : bool) (w : World) (e win : Entry),
     fileOf info (storage w) = Some file ->
     db_fetchEntryMeta (db w) (inr file) (Some rev) true = Some e ->
     e_path win = e_path e ->
     dbToStorageWithSpecificRev info rev force w
     = dbToStorage (inr win) (Some (inr file)) force w) /\
  (forall (info : option FileRef) (file : FileInfo) (rev : string)
          (w : World) (e win docRead : Entry),
     fileOf info (storage w) = Some file ->
     db_fetchEntryMeta (db w) (inr file) (Some rev) true = Some e ->
     db_fetchEntryMeta (db w) (inl (e_path e)) None true = Some win ->
     passesConflictGate w (getPath win) ->
     (forall f, st_getStub (storage w) (getPath win) = Some f ->
                isFolder f = false) ->
     readable w win docRead ->
     let r := dbToStorageWithSpecificRev info rev true w in
     fst r = Normal (fst (applyToStorage "modify" (getPath win) docRead (storage w)))
     /\ storage (snd r)
        = snd (applyToStorage "modify" (getPath win) docRead (storage w))).
Proof.
  assert (forall (e1 e2 : Entry) (info : option FileRef) (force : bool) (w : World),
            e_path e1 = e_path e2 ->
            dbToStorage (inr e1) info force w = dbToStorage (inr e2) info force w)
    as Hsame.
  { intros e1 e2 info force w Hp. unfold dbToStorage. rewrite Hp. reflexivity. }
  assert (forall (info : option FileRef) (file : FileInfo) (rev : string)
                 (force : bool) (w : World) (e : Entry),
            fileOf info (storage w) = Some file ->
            db_fetchEntryMeta (db w) (inr file) (Some rev) true = Some e ->
            dbToStorageWithSpecificRev info rev force w
            = dbToStorage (inr e) (Some (inr file)) force w) as Hrev.
  { intros info file rev force w e Hfile Hmeta.
    unfold dbToStorageWithSpecificRev.
    unfold bind at 1. unfold resolveFile at 1. unfold readStorage at 1.
    rewrite Hfile. unfold bind at 1. unfold readDb at 1. rewrite Hmeta.
    reflexivity. }
  split; [exact Hsame | split].
  - intros info file rev force w e win Hfile Hmeta Hp.
    rewrite (Hrev _ _ _ _ _ _ Hfile Hmeta). apply Hsame. symmetry. exact Hp.
  - intros info file rev w e win docRead Hfile Hmeta Hwin Hgate Hfolder Hread r.
    subst r. rewrite (Hrev _ _ _ _ _ _ Hfile Hmeta).
    apply (dbToStorage_forced (inr e) (Some (inr file)) w win docRead);
      assumption.
Qed.

Lemma keepsLocks_ret {A} (a : A) : keepsLocks (ret a : M A).
Proof. intros w. reflexivity. Qed.

Lemma keepsLocks_throw {A} (msg : string) : keepsLocks (throw msg : M A).
Proof. intros w. reflexivity. Qed.

Lemma keepsLocks_liftC {A} (c : Completion A) : keepsLocks (liftC c : M A).
Proof. intros w. reflexivity. Qed.

Lemma keepsLocks_bind {A B} (m : M A) (k : A -> M B) :
  keepsLocks m -> (forall a, keepsLocks (k a)) -> keepsLocks (bind m k).
Proof.
  intros Hm Hk w. unfold bind. specialize (Hm w).
  destruct (m w) as [[a | msg] w']; cbn in *; [| exact Hm].
  rewrite Hk. exact Hm.
Qed.

Lemma keepsLocks_readDb {A} (f : D -> A) : keepsLocks (readDb f : M A).
Proof. intros w. reflexivity. Qed.

Lemma keepsLocks_callDb {A} (f : D -> A * D) : keepsLocks (callDb f : M A).
Proof. intros w. reflexivity. Qed.

Lemma keepsLocks_readStorage {A} (f : S -> A) : keepsLocks (readStorage f : M A).
Proof. intros w. reflexivity. Qed.

Lemma keepsLocks_callStorage {A} (f : S -> A * S) :
  keepsLocks (callStorage f : M A).
Proof. intros w. reflexivity. Qed.

Lemma keepsLocks_doStorage (f : S -> S) : keepsLocks (doStorage f : M unit).
Proof. intros w. reflexivity. Qed.

Lemma keepsLocks_readCore {A} (f : C -> A) : keepsLocks (readCore f : M A).
Proof. intros w. reflexivity. Qed.

Lemma keepsLocks_doCore (f : C -> C) : keepsLocks (doCore f : M unit).
Proof. intros w. reflexivity. Qed.

Lemma keepsLocks_readSettings {A} (f : Settings -> A) :
  keepsLocks (readSettings f : M A).
Proof. intros w. reflexivity. Qed.

Lemma keepsLocks_readPairs {A} (f : PairStore -> A) :
  keepsLocks (readPairs f : M A).
Proof. intros w. reflexivity. Qed.

Lemma keepsLocks_callPairs {A} (f : PairStore -> A * PairStore) :
  keepsLocks (callPairs f : M A).
Proof. intros w. reflexivity. Qed.

Lemma keepsLocks_log (msg : string) (level : LogLevel) :
  keepsLocks (_log msg level : M unit).
Proof. intros w. reflexivity. Qed.

Lemma keepsLocks_emitEvent (name arg : string) :
  keepsLocks (emitEvent name arg : M unit).
Proof. intros w. reflexivity. Qed.

Lemma keepsLocks_resolveFile (info : option FileRef) :
  keepsLocks (resolveFile info : M (option FileInfo)).
Proof. intros w. reflexivity. Qed.

(** Follows the shape of a computation down to its primitives. *)
Ltac keeps_locks :=
  repeat first
    [ match goal with
      | Hk : forall _, keepsLocks _ |- _ => apply Hk
      | Hk : forall _ _ _, keepsLocks _ |- _ => apply Hk
      end
    | progress cbv zeta
    | apply keepsLocks_ret | apply keepsLocks_throw | apply keepsLocks_liftC
    | apply keepsLocks_readDb | apply keepsLocks_callDb
    | apply keepsLocks_readStorage | apply keepsLocks_callStorage
    | apply keepsLocks_doStorage
    | apply keepsLocks_readCore | apply keepsLocks_doCore
    | apply keepsLocks_readSettings
    | apply keepsLocks_readPairs | apply keepsLocks_callPairs
    | apply keepsLocks_log | apply keepsLocks_emitEvent
    | apply keepsLocks_resolveFile
    | apply keepsLocks_bind; [| intros ?]
    | match goal with
      | |- keepsLocks (match ?x with _ => _ end) => destruct x
      end ].

Lemma keepsLocks_readFileFromStub (file : FileInfo) :
  keepsLocks (readFileFromStub file : M UXFileInfo).
Proof. unfold readFileFromStub. keeps_locks. Qed.

Lemma keepsLocks_storeFileToDB (info : FileRef) (force onlyChunks : bool) :
  keepsLocks (storeFileToDB info force onlyChunks : M (option bool)).
Proof.
  pose proof keepsLocks_readFileFromStub as Hread.
  unfold storeFileToDB. keeps_locks.
Qed.

Lemma keepsLocks_deleteFileFromDB (info : FileRef) :
  keepsLocks (deleteFileFromDB info : M (option bool)).
Proof. unfold deleteFileFromDB. keeps_locks. Qed.

Lemma keepsLocks_dbToStorage (entryInfo : string + Entry)
    (info : option FileRef) (force : bool) :
  keepsLocks (dbToStorage entryInfo info force : M bool).
Proof.
  pose proof keepsLocks_readFileFromStub as Hread.
  unfold dbToStorage. keeps_locks.
Qed.

Lemma length_append (s1 s2 : string) :
  String.length (s1 +:+ s2) = (String.length s1 + String.length s2)%nat.
Proof.
  induction s1 as [| c s1 IH]; [reflexivity |].
  change (Datatypes.S (String.length (s1 +:+ s2))
          = Datatypes.S (String.length s1 + String.length s2)%nat).
  f_equal. exact IH.
Qed.

(** C3 (amended): the file-event entry point takes the lock
    ["processFileEvent-" + path], the replication entry point takes the
    lock [entry.path]; for the same path the two keys differ. *)
Theorem entry_points_lock_keys :
  (forall (item : FileEventItem) (w : World),
     core_isTargetFile (core w) (path (args_file item)) = true ->
     shouldBeIgnored (path (args_file item)) = false ->
     locks (snd (anyHandlerProcessesFileEvent item w))
     = locks w ++ ["processFileEvent-" +:+ path (args_file item)]) /\
  (forall (entry : Entry) (w : World),
     locks (snd (anyProcessReplicatedDoc entry w)) = locks w ++ [e_path entry]) /\
  (forall p : string, "processFileEvent-" +:+ p <> p).
Proof.
  split; [| split].
  - intros item w Htarget Hignored.
    unfold anyHandlerProcessesFileEvent. mstep. rewrite Htarget, Hignored.
    cbn [negb]. unfold serialized.
    destruct (type item).
    + rewrite keepsLocks_storeFileToDB. reflexivity.
    + rewrite keepsLocks_storeFileToDB. reflexivity.
    + rewrite keepsLocks_deleteFileFromDB. reflexivity.
    + reflexivity.
    + reflexivity.
  - intros entry w. unfold anyProcessReplicatedDoc, serialized.
    pose proof keepsLocks_dbToStorage as Hdb.
    match goal with
    | |- locks (snd (?m ?w')) = _ =>
        assert (keepsLocks m) as Hk; [| rewrite Hk; reflexivity]
    end.
    keeps_locks.
  - intros p Heq. apply (f_equal String.length) in Heq.
    rewrite length_append in Heq. cbn in Heq. lia.
Qed.

(** ** What each direction of the engine leaves alone *)

Lemma preserves_ret {A X} (proj : World -> X) (a : A) : preserves proj (ret a : M A).
Proof. intros w. reflexivity. Qed.

Lemma preserves_throw {A X} (proj : World -> X) (msg : string) :
  preserves proj (throw msg : M A).
Proof. intros w. reflexivity. Qed.

Lemma preserves_liftC {A X} (proj : World -> X) (c : Completion A) :
  preserves proj (liftC c : M A).
Proof. intros w. reflexivity. Qed.

Lemma preserves_bind {A B X} (proj : World -> X) (m : M A) (k : A -> M B) :
  preserves proj m -> (forall a, preserves proj (k a)) -> preserves proj (bind m k).
Proof.
  intros Hm Hk w. unfold bind. specialize (Hm w).
  destruct (m w) as [[a | msg] w']; cbn [snd] in *; [| exact Hm].
  rewrite Hk. exact Hm.
Qed.

Lemma preserves_readDb {A X} (proj : World -> X) (f : D -> A) :
  preserves proj (readDb f : M A).
Proof. intros w. reflexivity. Qed.

Lemma preserves_readStorage {A X} (proj : World -> X) (f : S -> A) :
  preserves proj (readStorage f : M A).
Proof. intros w. reflexivity. Qed.

Lemma preserves_readCore {A X} (proj : World -> X) (f : C -> A) :
  preserves proj (readCore f : M A).
Proof. intros w. reflexivity. Qed.

Lemma preserves_readSettings {A X} (proj : World -> X) (f : Settings -> A) :
  preserves proj (readSettings f : M A).
Proof. intros w. reflexivity. Qed.

Lemma preserves_readPairs {A X} (proj : World -> X) (f : PairStore -> A) :
  preserves proj (readPairs f : M A).
Proof. intros w. reflexivity. Qed.

Lemma preserves_resolveFile {X} (proj : World -> X) (info : option FileRef) :
  preserves proj (resolveFile info : M (option FileInfo)).
Proof. intros w. reflexivity. Qed.

Lemma preserves_callDb {A X} (proj : World -> X) (f : D -> A * D) :
  (forall d w, proj (withDb d w) = proj w) -> preserves proj (callDb f : M A).
Proof. intros Hp w. apply Hp. Qed.

Lemma preserves_callStorage {A X} (proj : World -> X) (f : S -> A * S) :
  (forall s w, proj (withStorage s w) = proj w) ->
  preserves proj (callStorage f : M A).
Proof. intros Hp w. apply Hp. Qed.

Lemma preserves_doStorage {X} (proj : World -> X) (f : S -> S) :
  (forall s w, proj (withStorage s w) = proj w) ->
  preserves proj (doStorage f : M unit).
Proof. intros Hp w. apply Hp. Qed.

Lemma preserves_doCore {X} (proj : World -> X) (f : C -> C) :
  (forall c w, proj (withCore c w) = proj w) -> preserves proj (doCore f : M unit).
Proof. intros Hp w. apply Hp. Qed.

Lemma preserves_callPairs {A X} (proj : World -> X) (f : PairStore -> A * PairStore) :
  (forall p w, proj (withPairs p w) = proj w) ->
  preserves proj (callPairs f : M A).
Proof. intros Hp w. apply Hp. Qed.

Lemma preserves_log {X} (proj : World -> X) (msg : string) (level : LogLevel) :
  (forall l w, proj (withLogs l w) = proj w) ->
  preserves proj (_log msg level : M unit).
Proof. intros Hp w. apply Hp. Qed.

Lemma preserves_emitEvent {X} (proj : World -> X) (name arg : string) :
  (forall e w, proj (withEvents e w) = proj w) ->
  preserves proj (emitEvent name arg : M unit).
Proof. intros Hp w. apply Hp. Qed.

Lemma preserves_serialized {A X} (proj : World -> X) (key : string) (proc : M A) :
  (forall l w, proj (withLocks l w) = proj w) ->
  preserves proj proc -> preserves proj (serialized key proc).
Proof. intros Hp Hproc w. unfold serialized. rewrite Hproc. apply Hp. Qed.

(** Follows the shape of a computation; an update of the component that
    is to be preserved stops it. *)
Ltac frame :=
  repeat first
    [ match goal with
      | Hk : forall _, preserves _ _ |- _ => apply Hk
      | Hk : forall _ _, preserves _ _ |- _ => apply Hk
      | Hk : forall _ _ _, preserves _ _ |- _ => apply Hk
      end
    | progress cbv zeta
    | apply preserves_ret | apply preserves_throw | apply preserves_liftC
    | apply preserves_readDb | apply preserves_readStorage
    | apply preserves_readCore | apply preserves_readSettings
    | apply preserves_readPairs | apply preserves_resolveFile
    | apply preserves_callDb; [intros; reflexivity]
    | apply preserves_callStorage; [intros; reflexivity]
    | apply preserves_doStorage; [intros; reflexivity]
    | apply preserves_doCore; [intros; reflexivity]
    | apply preserves_callPairs; [intros; reflexivity]
    | apply preserves_log; [intros; reflexivity]
    | apply preserves_emitEvent; [intros; reflexivity]
    | apply preserves_serialized; [intros; reflexivity |]
    | apply preserves_bind; [| intros ?]
    | match goal with
      | |- preserves _ (match ?x with _ => _ end) => destruct x
      end ].

Lemma preserves_readFileFromStub {X} (proj : World -> X) (file : FileInfo) :
  preserves proj (readFileFromStub file : M UXFileInfo).
Proof. unfold readFileFromStub. frame. Qed.

(** X16: the storage-to-database direction never changes the vault:
    [storeFileToDB], [deleteFileFromDB], [deleteRevisionFromDB] and the
    file-event entry point leave the storage state as it was on every
    input, whether they return or throw. *)
Theorem store_direction_keeps_storage :
  (forall info force onlyChunks,
     preserves storage (storeFileToDB info force onlyChunks : M (option bool))) /\
  (forall info, preserves storage (deleteFileFromDB info : M (option bool))) /\
  (forall info rev,
     preserves storage (deleteRevisionFromDB info rev : M (option bool))) /\
  (forall item,
     preserves storage (anyHandlerProcessesFileEvent item : M (option bool))).
Proof.
  pose proof (@preserves_readFileFromStub S storage) as Hread.
  assert (forall info force onlyChunks,
            preserves storage (storeFileToDB info force onlyChunks : M (option bool)))
    as Hstore by (intros; unfold storeFileToDB; frame).
  assert (forall info, preserves storage (deleteFileFromDB info : M (option bool)))
    as Hdelete by (intros; unfold deleteFileFromDB; frame).
  split; [exact Hstore |]. split; [exact Hdelete |]. split.
  - intros info rev. unfold deleteRevisionFromDB. frame.
  - intros item. unfold anyHandlerProcessesFileEvent. frame.
Qed.

(** X17: the database-to-storage direction never changes the database:
    [dbToStorage], [dbToStorageWithSpecificRev] and the replication
    entry point leave the database state as it was on every input. *)
Theorem apply_direction_keeps_database :
  (forall entryInfo info force,
     preserves db (dbToStorage entryInfo info force : M bool)) /\
  (forall info rev force,
     preserves db (dbToStorageWithSpecificRev info rev force : M bool)) /\
  (forall entry, preserves db (anyProcessReplicatedDoc entry : M (option bool))).
Proof.
  pose proof (@preserves_readFileFromStub D db) as Hread.
  assert (forall entryInfo info force,
            preserves db (dbToStorage entryInfo info force : M bool))
    as Hdb by (intros; unfold dbToStorage; frame).
  split; [exact Hdb |]. split.
  - intros info rev force. unfold dbToStorageWithSpecificRev. frame.
  - intros entry. unfold anyProcessReplicatedDoc. frame.
Qed.


(** ** Exceptions *)

Lemma onlyThrows_ret {A} (E : string -> Prop) (a : A) : onlyThrows E (ret a : M A).
Proof. intros w msg Hm. discriminate Hm. Qed.

Lemma onlyThrows_bind {A B} (E : string -> Prop) (m : M A) (k : A -> M B) :
  onlyThrows E m -> (forall a, onlyThrows E (k a)) -> onlyThrows E (bind m k).
Proof.
  intros Hm Hk w msg. unfold bind. specialize (Hm w).
  destruct (m w) as [[a | msg'] w']; cbn [fst] in *.
  - apply Hk.
  - intros Heq. injection Heq as <-. apply Hm. reflexivity.
Qed.

Lemma onlyThrows_readDb {A} (E : string -> Prop) (f : D -> A) :
  onlyThrows E (readDb f : M A).
Proof. intros w msg Hm. discriminate Hm. Qed.

Lemma onlyThrows_callDb {A} (E : string -> Prop) (f : D -> A * D) :
  onlyThrows E (callDb f : M A).
Proof. intros w msg Hm. discriminate Hm. Qed.

Lemma onlyThrows_readStorage {A} (E : string -> Prop) (f : S -> A) :
  onlyThrows E (readStorage f : M A).
Proof. intros w msg Hm. discriminate Hm. Qed.

Lemma onlyThrows_callStorage {A} (E : string -> Prop) (f : S -> A * S) :
  onlyThrows E (callStorage f : M A).
Proof. intros w msg Hm. discriminate Hm. Qed.

Lemma onlyThrows_doStorage (E : string -> Prop) (f : S -> S) :
  onlyThrows E (doStorage f : M unit).
Proof. intros w msg Hm. discriminate Hm. Qed.

Lemma onlyThrows_readCore {A} (E : string -> Prop) (f : C -> A) :
  onlyThrows E (readCore f : M A).
Proof. intros w msg Hm. discriminate Hm. Qed.

Lemma onlyThrows_doCore (E : string -> Prop) (f : C -> C) :
  onlyThrows E (doCore f : M unit).
Proof. intros w msg Hm. discriminate Hm. Qed.

Lemma onlyThrows_readSettings {A} (E : string -> Prop) (f : Settings -> A) :
  onlyThrows E (readSettings f : M A).
Proof. intros w msg Hm. discriminate Hm. Qed.

Lemma onlyThrows_callPairs {A} (E : string -> Prop) (f : PairStore -> A * PairStore) :
  onlyThrows E (callPairs f : M A).
Proof. intros w msg Hm. discriminate Hm. Qed.

Lemma onlyThrows_log (E : string -> Prop) (msg : string) (level : LogLevel) :
  onlyThrows E (_log msg level : M unit).
Proof. intros w m Hm. discriminate Hm. Qed.

Lemma onlyThrows_emitEvent (E : string -> Prop) (name arg : string) :
  onlyThrows E (emitEvent name arg : M unit).
Proof. intros w m Hm. discriminate Hm. Qed.

Lemma onlyThrows_resolveFile (E : string -> Prop) (info : option FileRef) :
  onlyThrows E (resolveFile info : M (option FileInfo)).
Proof. intros w m Hm. discriminate Hm. Qed.

Lemma onlyThrows_serialized {A} (E : string -> Prop) (key : string) (proc : M A) :
  onlyThrows E proc -> onlyThrows E (serialized key proc).
Proof. intros Hp w msg. unfold serialized. apply Hp. Qed.

Lemma compareFileFreshness_returns (base target : option FileOrEntry)
    (s : PairStore) :
  exists v, compareFileFreshness base target s = Normal v.
Proof.
  unfold compareFileFreshness.
  destruct base as [b |], target as [t |]; eauto.
  destruct (_ && _); [eauto |].
  destruct (UtilsSpec.compareMTime_cases (modifiedOf b) (modifiedOf t))
    as [[_ E] | [[_ E] | [_ E]]]; rewrite E; eauto.
Qed.

Lemma onlyThrows_compare (E : string -> Prop) (base target : option FileOrEntry) :
  onlyThrows E (bind (readPairs (compareFileFreshness base target)) liftC
                : M Freshness).
Proof.
  intros w msg. unfold bind, readPairs, liftC.
  destruct (compareFileFreshness_returns base target (pairs w)) as [v ->].
  discriminate.
Qed.

Lemma onlyThrows_readFileFromStub (file : FileInfo) :
  onlyThrows missingOnStorage (readFileFromStub file : M UXFileInfo).
Proof.
  intros w msg. unfold readFileFromStub, bind, readStorage, ret, throw.
  destruct file as [s | fi]; [| discriminate].
  destruct (st_readStubContent (storage w) s); [discriminate |].
  cbn [fst]. intros Heq. injection Heq as <-. exists (path s). reflexivity.
Qed.

Ltac no_throw :=
  repeat first
    [ match goal with
      | Hk : forall _, onlyThrows _ _ |- _ => apply Hk
      | Hk : forall _ _, onlyThrows _ _ |- _ => apply Hk
      | Hk : forall _ _ _, onlyThrows _ _ |- _ => apply Hk
      end
    | progress cbv zeta
    | apply onlyThrows_compare
    | apply onlyThrows_ret
    | apply onlyThrows_readDb | apply onlyThrows_callDb
    | apply onlyThrows_readStorage | apply onlyThrows_callStorage
    | apply onlyThrows_doStorage
    | apply onlyThrows_readCore | apply onlyThrows_doCore
    | apply onlyThrows_readSettings | apply onlyThrows_callPairs
    | apply onlyThrows_log | apply onlyThrows_emitEvent
    | apply onlyThrows_resolveFile
    | apply onlyThrows_serialized
    | apply onlyThrows_bind; [| intros ?]
    | match goal with
      | |- onlyThrows _ (match ?x with _ => _ end) => destruct x
      end ].

(** X18: the only exception the engine raises is the one of
    [readFileFromStub], "File ... is not exist on the storage", and
    [readFileFromStub] raises it exactly for a descriptor without a body
    whose content the storage cannot read; [deleteFileFromDB] and
    [deleteRevisionFromDB] never raise. *)
Theorem engine_exceptions :
  (forall (file : FileInfo) (w : World),
     (exists msg, fst (readFileFromStub file w) = Throw msg) <->
     exists s, file = inl s /\ st_readStubContent (storage w) s = None) /\
  (forall info force onlyChunks,
     onlyThrows missingOnStorage
       (storeFileToDB info force onlyChunks : M (option bool))) /\
  (forall entryInfo info force,
     onlyThrows missingOnStorage (dbToStorage entryInfo info force : M bool)) /\
  (forall info rev force,
     onlyThrows missingOnStorage
       (dbToStorageWithSpecificRev info rev force : M bool)) /\
  (forall info rev,
     onlyThrows missingOnStorage
       (resolveConflictedByDeletingRevision info rev : M (option bool))) /\
  (forall item,
     onlyThrows missingOnStorage
       (anyHandlerProcessesFileEvent item : M (option bool))) /\
  (forall entry,
     onlyThrows missingOnStorage (anyProcessReplicatedDoc entry : M (option bool))) /\
  (forall info,
     onlyThrows (fun _ => False) (deleteFileFromDB info : M (option bool))) /\
  (forall info rev,
     onlyThrows (fun _ => False) (deleteRevisionFromDB info rev : M (option bool))).
Proof.
  pose proof onlyThrows_readFileFromStub as Hread.
  assert (forall info force onlyChunks,
            onlyThrows missingOnStorage
              (storeFileToDB info force onlyChunks : M (option bool)))
    as Hstore by (intros; unfold storeFileToDB; no_throw).
  assert (forall entryInfo info force,
            onlyThrows missingOnStorage (dbToStorage entryInfo info force : M bool))
    as Hdb by (intros; unfold dbToStorage; no_throw).
  assert (forall info rev force,
            onlyThrows missingOnStorage
              (dbToStorageWithSpecificRev info rev force : M bool))
    as Hrev by (intros; unfold dbToStorageWithSpecificRev; no_throw).
  assert (forall E info,
            onlyThrows E (deleteFileFromDB info : M (option bool)))
    as Hdel by (intros; unfold deleteFileFromDB; no_throw).
  assert (forall E info rev,
            onlyThrows E (deleteRevisionFromDB info rev : M (option bool)))
    as Hdelrev by (intros; unfold deleteRevisionFromDB; no_throw).
  split; [| split; [exact Hstore | split; [exact Hdb | split; [exact Hrev |]]]].
  - intros file w. unfold readFileFromStub, bind, readStorage, ret, throw.
    destruct file as [s | fi].
    + destruct (st_readStubContent (storage w) s) as [fi |] eqn:Hc; cbn [fst].
      * split; [intros [msg Hm]; discriminate |].
        intros (s' & Heq & Hnone). injection Heq as <-. congruence.
      * split; [intros _; exists s; auto | intros _; eauto].
    + cbn [fst]. split; [intros [msg Hm]; discriminate |].
      intros (s' & Heq & _). discriminate.
  - split; [| split; [| split; [| split]]].
    + intros info rev. unfold resolveConflictedByDeletingRevision. no_throw.
    + intros item. unfold anyHandlerProcessesFileEvent. no_throw.
    + intros entry. unfold anyProcessReplicatedDoc. no_throw.
    + intros info. apply Hdel.
    + intros info rev. apply Hdelrev.
Qed.


(** ** The cases of [storeFileToDB] *)

Lemma bind_readFileFromStub {B} (file : FileInfo) (fi : UXFileInfo)
    (k : UXFileInfo -> M B) (w : World) :
  bodyOf file (storage w) = Some fi ->
  bind (readFileFromStub file) k w = k fi w.
Proof.
  intros Hb. unfold readFileFromStub. destruct file as [s | fi'].
  - cbn [bodyOf] in Hb. mstep. mstep. rewrite Hb. mstep. reflexivity.
  - cbn [bodyOf] in Hb. injection Hb as ->. reflexivity.
Qed.

(** X19: [storeFileToDB] and [deleteFileFromDB] decline a path that the
    storage does not know and a file marked internal: they return
    [false] and only write a log line, so the database, the storage and
    the registry are as before. *)
Theorem store_and_delete_decline (info : FileRef) (force onlyChunks : bool)
    (w : World) :
  (fileOf (Some info) (storage w) = None ->
   storeFileToDB info force onlyChunks w
   = (Normal (Some false),
      withLogs (logs w ++ [("File " +:+ showRef info
                            +:+ " is not exist on the storage",
                            LOG_LEVEL_VERBOSE)]) w) /\
   deleteFileFromDB info w = storeFileToDB info force onlyChunks w) /\
  (forall file,
     fileOf (Some info) (storage w) = Some file ->
     isInternal (stubOf file) = true ->
     storeFileToDB info force onlyChunks w
     = (Normal (Some false),
        withLogs (logs w ++ [("Internal file " +:+ path (stubOf file)
                              +:+ " is not allowed to be processed on processFileEvent",
                              LOG_LEVEL_VERBOSE)]) w) /\
     deleteFileFromDB info w = storeFileToDB info force onlyChunks w).
Proof.
  split.
  - intros Hnone.
    assert (storeFileToDB info force onlyChunks w
            = (Normal (Some false),
               withLogs (logs w ++ [("File " +:+ showRef info
                                     +:+ " is not exist on the storage",
                                     LOG_LEVEL_VERBOSE)]) w)) as E.
    { unfold storeFileToDB. mstep. rewrite Hnone. mstep. mstep. reflexivity. }
    split; [exact E |]. rewrite E.
    unfold deleteFileFromDB. mstep. rewrite Hnone. mstep. mstep. reflexivity.
  - intros file Hfile Hint.
    assert (storeFileToDB info force onlyChunks w
            = (Normal (Some false),
               withLogs (logs w ++ [("Internal file " +:+ path (stubOf file)
                                     +:+ " is not allowed to be processed on processFileEvent",
                                     LOG_LEVEL_VERBOSE)]) w)) as E.
    { unfold storeFileToDB. mstep. rewrite Hfile. cbv beta iota. rewrite Hint.
      mstep. mstep. reflexivity. }
    split; [exact E |]. rewrite E.
    unfold deleteFileFromDB. mstep. rewrite Hfile. cbv beta iota. rewrite Hint.
    mstep. mstep. reflexivity.
Qed.

(** Runs [storeFileToDB] up to the test on the entry of the database. *)
Ltac to_entry Hfile Hint :=
  unfold storeFileToDB; mstep; rewrite Hfile; cbv beta iota; rewrite Hint;
  cbv beta iota; mstep.

(** X20: for a readable file that is not internal, [storeFileToDB]
    creates the document without force when the database has no live
    entry for it, and with [force] or [onlyChunks] set it writes over a
    live entry with the force flag set, without comparing anything; with
    [onlyChunks] the call is [createChunks], never [store]. *)
Theorem storeFileToDB_creates_and_forces
    (info : FileRef) (force onlyChunks : bool) (w : World)
    (file : FileInfo) (fi : UXFileInfo) :
  fileOf (Some info) (storage w) = Some file ->
  isInternal (stubOf file) = false ->
  bodyOf file (storage w) = Some fi ->
  (liveEntry (db_fetchEntry (db w) (inr file) None true true) = None ->
   storeFileToDB info force onlyChunks w
   = storeResult (if onlyChunks then db_createChunks fi false true
                  else db_store fi None None) w) /\
  (forall e,
     liveEntry (db_fetchEntry (db w) (inr file) None true true) = Some e ->
     force = true \/ onlyChunks = true ->
     storeFileToDB info force onlyChunks w
     = storeResult (if onlyChunks then db_createChunks fi true true
                    else db_store fi (Some true) (Some true)) w).
Proof.
  intros Hfile Hint Hbody. split.
  - intros Hlive. to_entry Hfile Hint. rewrite Hlive.
    rewrite (bind_readFileFromStub _ _ _ _ Hbody).
    destruct onlyChunks; cbn [negb]; mstep; mstep; reflexivity.
  - intros e Hlive Hforced. to_entry Hfile Hint. rewrite Hlive.
    assert (negb force && negb onlyChunks = false) as ->.
    { destruct Hforced as [-> | ->]; [reflexivity | apply andb_false_r]. }
    rewrite (bind_readFileFromStub _ _ _ _ Hbody).
    destruct onlyChunks; mstep; mstep; reflexivity.
Qed.

(** X21: without [force] and [onlyChunks], [storeFileToDB] on a live
    entry stores the file at once when the freshness comparison is not
    [EVEN], without looking at the contents; when it is [EVEN] it
    compares the contents, and equal contents leave the database as it
    was, mark the two modification times as the same change and return
    [true], while different contents are stored. *)
Theorem storeFileToDB_compares_when_even
    (info : FileRef) (w : World) (file : FileInfo) (fi : UXFileInfo)
    (e : Entry) :
  fileOf (Some info) (storage w) = Some file ->
  isInternal (stubOf file) = false ->
  bodyOf file (storage w) = Some fi ->
  liveEntry (db_fetchEntry (db w) (inr file) None true true) = Some e ->
  let fresh := compareFileFreshness (Some (inl (stubOf file))) (Some (inr e))
                 (pairs w) in
  let same := isDocContentSame (DataChunks (getDocDataAsArray (data e)))
                (body fi) in
  (forall v, fresh = Normal v -> v <> EVEN ->
     storeFileToDB info false false w
     = storeResult (db_store fi (Some false) (Some true)) w) /\
  (fresh = Normal EVEN -> same = true ->
   storeFileToDB info false false w
   = (Normal (Some true),
      withLogs (logs w ++ [("File " +:+ path (stubOf file) +:+ " is not changed",
                            LOG_LEVEL_VERBOSE)])
        (withPairs (snd (markChangesAreSame (ByStub (stubOf file))
                           (mtime (stat (stubOf file))) (e_mtime e) (pairs w)))
           w))) /\
  (fresh = Normal EVEN -> same = false ->
   storeFileToDB info false false w
   = storeResult (db_store fi (Some false) (Some true)) w).
Proof.
  intros Hfile Hint Hbody Hlive fresh same. subst fresh same.
  split; [| split].
  - intros v Hfresh Hv. to_entry Hfile Hint. rewrite Hlive.
    cbn [negb andb]. mstep. mstep. rewrite Hfresh. mstep.
    rewrite (bool_decide_eq_true_2 (v <> EVEN)) by exact Hv.
    cbn [negb]. mstep. cbn [negb].
    rewrite (bind_readFileFromStub _ _ _ _ Hbody). mstep. mstep. reflexivity.
  - intros Hfresh Hsame. to_entry Hfile Hint. rewrite Hlive.
    cbn [negb andb]. mstep. mstep. rewrite Hfresh. mstep.
    rewrite (bool_decide_eq_false_2 (EVEN <> EVEN)) by auto.
    cbn [negb]. mstep. rewrite (bind_readFileFromStub _ _ _ _ Hbody).
    rewrite Hsame. repeat mstep. reflexivity.
  - intros Hfresh Hsame. to_entry Hfile Hint. rewrite Hlive.
    cbn [negb andb]. mstep. mstep. rewrite Hfresh. mstep.
    rewrite (bool_decide_eq_false_2 (EVEN <> EVEN)) by auto.
    cbn [negb]. mstep. rewrite (bind_readFileFromStub _ _ _ _ Hbody).
    rewrite Hsame. repeat mstep. reflexivity.
Qed.


(** ** The other cases of [dbToStorage] *)

(** X22: [dbToStorage] returns [false] and only writes a log line when
    the document cannot be found by its path, and when the body of a
    live document cannot be fetched; storage is not changed. *)
Theorem dbToStorage_fails_without_document
    (entryInfo : string + Entry) (info : option FileRef) (force : bool)
    (w : World) :
  (db_fetchEntryMeta (db w)
     (inl match entryInfo with inl p => p | inr e => e_path e end) None true
   = None ->
   dbToStorage entryInfo info force w
   = (Normal false,
      withLogs (logs w ++ [("File "
                            +:+ match entryInfo with
                                | inl p => p
                                | inr _ => objectObject
                                end
                            +:+ " is not exist on the database",
                            LOG_LEVEL_VERBOSE)]) w)) /\
  (forall docEntry,
     db_fetchEntryMeta (db w)
       (inl match entryInfo with inl p => p | inr e => e_path e end) None true
     = Some docEntry ->
     passesConflictGate w (getPath docEntry) ->
     (forall f, st_getStub (storage w) (getPath docEntry) = Some f ->
                isFolder f = false) ->
     isTrue (_deleted docEntry) = false -> isTrue (deleted docEntry) = false ->
     db_fetchEntryFromMeta (db w) docEntry = None ->
     dbToStorage entryInfo info force w
     = (Normal false,
        withLogs (logs w ++ [("File " +:+ getPath docEntry
                              +:+ " is not exist on the database",
                              LOG_LEVEL_VERBOSE)]) w)).
Proof.
  split.
  - intros Hmeta. unfold dbToStorage. mstep.
    destruct entryInfo as [p | e]; mstep; rewrite Hmeta; mstep; mstep;
      reflexivity.
  - intros docEntry Hmeta Hgate Hfolder Hd1 Hd2 Hread.
    to_vault_lookup Hmeta Hgate.
    destruct (st_getStub (storage w) (getPath docEntry)) as [f |] eqn:Hstub;
      [rewrite (Hfolder f eq_refl) |];
      rewrite Hd1, Hd2; cbn [negb orb andb]; mstep; rewrite Hread;
      mstep; mstep; reflexivity.
Qed.

(** X23: when the path of the document is a folder of the vault,
    [dbToStorage] returns [true] and only writes a log line, whether the
    document is deleted or not and whatever [force] is. *)
Theorem dbToStorage_leaves_folders
    (entryInfo : string + Entry) (info : option FileRef) (force : bool)
    (w : World) (docEntry : Entry) (f : UXFileInfoStub) :
  db_fetchEntryMeta (db w)
    (inl match entryInfo with inl p => p | inr e => e_path e end) None true
  = Some docEntry ->
  passesConflictGate w (getPath docEntry) ->
  st_getStub (storage w) (getPath docEntry) = Some f ->
  isFolder f = true ->
  dbToStorage entryInfo info force w
  = (Normal true,
     withLogs (logs w ++ [("Folder " +:+ getPath docEntry
                           +:+ " is already exist on the storage as a folder",
                           LOG_LEVEL_VERBOSE)]) w).
Proof.
  intros Hmeta Hgate Hstub Hfolder. to_vault_lookup Hmeta Hgate.
  rewrite Hstub, Hfolder. mstep. mstep. reflexivity.
Qed.

(** X24: a deleted document is carried over as a deletion: when the
    vault has a file at its path, [dbToStorage] deletes that item and
    does nothing else to the storage (no directory is made, nothing is
    written, no file event is posted); when the vault has nothing there
    it only writes a log line; both return [true], whatever [force] is. *)
Theorem dbToStorage_transfers_deletion
    (entryInfo : string + Entry) (info : option FileRef) (force : bool)
    (w : World) (docEntry : Entry) :
  db_fetchEntryMeta (db w)
    (inl match entryInfo with inl p => p | inr e => e_path e end) None true
  = Some docEntry ->
  passesConflictGate w (getPath docEntry) ->
  isTrue (_deleted docEntry) = true \/ isTrue (deleted docEntry) = true ->
  (forall f,
     st_getStub (storage w) (getPath docEntry) = Some f -> isFolder f = false ->
     dbToStorage entryInfo info force w
     = (Normal true,
        withStorage (st_deleteVaultItem (getPath docEntry) (storage w)) w)) /\
  (st_getStub (storage w) (getPath docEntry) = None ->
   dbToStorage entryInfo info force w
   = (Normal true,
      withLogs (logs w ++ [("File " +:+ getPath docEntry
                            +:+ " seems to be deleted, but already not on storage",
                            LOG_LEVEL_VERBOSE)]) w)).
Proof.
  intros Hmeta Hgate Hdel.
  assert (negb (isTrue (_deleted docEntry) || isTrue (deleted docEntry) || false)
          = false) as Hexist.
  { destruct Hdel as [-> | ->]; [reflexivity |].
    rewrite orb_true_r. reflexivity. }
  split.
  - intros f Hstub Hfolder. to_vault_lookup Hmeta Hgate.
    rewrite Hstub, Hfolder, Hexist.
    rewrite (bool_decide_eq_true_2 (is_Some (Some f))) by eauto.
    cbn [negb andb]. mstep. mstep. reflexivity.
  - intros Hstub. to_vault_lookup Hmeta Hgate.
    rewrite Hstub, Hexist.
    rewrite (bool_decide_eq_false_2 (is_Some None))
      by (intros [x Hx]; discriminate).
    cbn [negb andb]. mstep. mstep. reflexivity.
Qed.

(** X25: when the vault has nothing at the path of a readable document,
    [dbToStorage] applies the document whatever [force] is: nothing is
    compared, the registry is as before, and the file event it posts has
    the mode [create] exactly when no file descriptor was passed in. *)
Theorem dbToStorage_creates_missing_file
    (entryInfo : string + Entry) (info : option FileRef) (force : bool)
    (w : World) (docEntry docRead : Entry) :
  db_fetchEntryMeta (db w)
    (inl match entryInfo with inl p => p | inr e => e_path e end) None true
  = Some docEntry ->
  passesConflictGate w (getPath docEntry) ->
  st_getStub (storage w) (getPath docEntry) = None ->
  readable w docEntry docRead ->
  let mode := match fileOf info (storage w) with
              | None => "create" | Some _ => "modify" end in
  let r := dbToStorage entryInfo info force w in
  fst r = Normal (fst (applyToStorage mode (getPath docEntry) docRead (storage w)))
  /\ storage (snd r)
     = snd (applyToStorage mode (getPath docEntry) docRead (storage w))
  /\ pairs (snd r) = pairs w.
Proof.
  intros Hmeta Hgate Hstub (Hd1 & Hd2 & Hread) mode r. subst r mode.
  unfold applyToStorage. to_vault_lookup Hmeta Hgate.
  rewrite Hstub, Hd1, Hd2. cbn [negb orb andb]. mstep. rewrite Hread.
  repeat mstep. world_simpl. auto.
Qed.

(** ** Conflict resolution and the entry points *)

(** X26: [resolveConflictedByDeletingRevision] never returns [true]: it
    returns [false] when the revision could not be deleted (without
    touching the storage) or could not be applied, and [undefined] when
    both steps succeeded. *)
Theorem resolveConflicted_never_true (info : FileRef) (rev : string) (w : World) :
  let r := resolveConflictedByDeletingRevision info rev w in
  let deletion := db_delete info (Some rev) (db w) in
  fst r <> Normal (Some true) /\
  (fst r = Normal None ->
   fst deletion = true /\
   fst (dbToStorageWithSpecificRev (Some info) rev true (withDb (snd deletion) w))
   = Normal true) /\
  (fst deletion = false ->
   fst r = Normal (Some false) /\ storage (snd r) = storage w /\
   db (snd r) = snd deletion).
Proof.
  intros r deletion. subst r deletion.
  unfold resolveConflictedByDeletingRevision, deleteRevisionFromDB. cbv zeta.
  mstep. mstep. mstep.
  change (isTrue (Some (fst (db_delete info (Some rev) (db w)))))
    with (fst (db_delete info (Some rev) (db w))).
  destruct (fst (db_delete info (Some rev) (db w))) eqn:Hdel; cbn [negb].
  - unfold bind.
    destruct (dbToStorageWithSpecificRev (Some info) rev true
                (withDb (snd (db_delete info (Some rev) (db w))) w))
      as [[applied | msg] w'] eqn:Happly.
    + destruct applied; cbn [negb]; unfold _log, ret; cbn [fst snd].
      * split; [discriminate |]. split; [auto | discriminate].
      * split; [discriminate |]. split; [discriminate | discriminate].
    + cbn [fst]. split; [discriminate |]. split; discriminate.
  - mstep. mstep. cbn [fst snd]. world_simpl.
    split; [discriminate |]. split; [discriminate | auto].
Qed.


(** X27: the file-event entry point declines a path that is not a sync
    target or that is ignored before it takes the lock, returning
    [false] with only a log line; past the filters it takes the lock and
    hands [CREATE] and [CHANGED] to [storeFileToDB] (without force),
    [DELETE] to [deleteFileFromDB], and returns [false] for [INTERNAL]
    and for an unknown tag without any call on the database. *)
Theorem fileEvent_dispatch (item : FileEventItem) (w : World) :
  let p := path (args_file item) in
  let locked := withLocks (locks w ++ ["processFileEvent-" +:+ p]) w in
  (core_isTargetFile (core w) p = false ->
   anyHandlerProcessesFileEvent item w
   = (Normal (Some false),
      withLogs (logs w ++ [("File " +:+ p +:+ " is not the target file",
                            LOG_LEVEL_VERBOSE)]) w)) /\
  (core_isTargetFile (core w) p = true -> shouldBeIgnored p = true ->
   anyHandlerProcessesFileEvent item w
   = (Normal (Some false),
      withLogs (logs w ++ [("File " +:+ p +:+ " should be ignored",
                            LOG_LEVEL_VERBOSE)]) w)) /\
  (core_isTargetFile (core w) p = true -> shouldBeIgnored p = false ->
   anyHandlerProcessesFileEvent item w
   = match type item with
     | CREATE | CHANGED =>
         storeFileToDB (inr (inl (args_file item))) false false locked
     | DELETE => deleteFileFromDB (inr (inl (args_file item))) locked
     | INTERNAL => (Normal (Some false), locked)
     | OtherType tag =>
         (Normal (Some false),
          withLogs (logs w ++ [("Unsupported event type: " +:+ tag,
                                LOG_LEVEL_VERBOSE)]) locked)
     end).
Proof.
  intros p locked. subst p locked. unfold anyHandlerProcessesFileEvent.
  cbv zeta. split; [| split].
  - intros Htarget. mstep. rewrite Htarget. cbn [negb]. mstep. mstep. reflexivity.
  - intros Htarget Hignored. mstep. rewrite Htarget, Hignored. cbn [negb].
    mstep. mstep. reflexivity.
  - intros Htarget Hignored. mstep. rewrite Htarget, Hignored. cbn [negb].
    unfold serialized. destruct (type item); try reflexivity.
Qed.

(** X28: the replication entry point takes its lock first; it then
    declines a path that is not a sync target or that is ignored with
    [false], and answers [true] for a path that is a folder of the vault,
    in all three cases changing only the log; in every other case it
    emits exactly one [conflict-cancelled] event, for the path of the
    entry, before it applies the document. *)
Theorem replicatedDoc_intake (entry : Entry) (w : World) :
  let locked := withLocks (locks w ++ [e_path entry]) w in
  (core_isTargetFile (core w) (e_path entry) = false ->
   anyProcessReplicatedDoc entry w
   = (Normal (Some false),
      withLogs (logs w ++ [("File " +:+ e_path entry +:+ " is not the target file",
                            LOG_LEVEL_VERBOSE)]) locked)) /\
  (core_isTargetFile (core w) (e_path entry) = true ->
   shouldBeIgnored (e_path entry) = true ->
   anyProcessReplicatedDoc entry w
   = (Normal (Some false),
      withLogs (logs w ++ [("File " +:+ e_path entry +:+ " should be ignored",
                            LOG_LEVEL_VERBOSE)]) locked)) /\
  (core_isTargetFile (core w) (e_path entry) = true ->
   shouldBeIgnored (e_path entry) = false ->
   (forall t,
      st_getStub (storage w) (getPathWithoutPrefix entry) = Some t ->
      isFolder t = true ->
      anyProcessReplicatedDoc entry w
      = (Normal (Some true),
         withLogs (logs w ++ [(getPath entry +:+ " is already exist as the folder",
                               LOG_LEVEL_INFO)]) locked)) /\
   ((forall t,
       st_getStub (storage w) (getPathWithoutPrefix entry) = Some t ->
       isFolder t = false) ->
    events (snd (anyProcessReplicatedDoc entry w))
    = events w ++ [("conflict-cancelled", getPath entry)])).
Proof.
  intros locked. subst locked. unfold anyProcessReplicatedDoc, serialized.
  split; [| split].
  - intros Htarget. mstep. world_simpl. rewrite Htarget. cbn [negb].
    mstep. mstep. reflexivity.
  - intros Htarget Hignored. mstep. world_simpl. rewrite Htarget, Hignored.
    cbn [negb]. mstep. mstep. reflexivity.
  - intros Htarget Hignored. split.
    + intros t Hstub Hfolder. mstep. world_simpl. rewrite Htarget, Hignored.
      cbn [negb]. mstep. world_simpl. rewrite Hstub, Hfolder.
      mstep. mstep. reflexivity.
    + intros Hfile. mstep. world_simpl. rewrite Htarget, Hignored.
      cbn [negb]. mstep. world_simpl.
      assert (match st_getStub (storage w) (getPathWithoutPrefix entry) with
              | Some t => isFolder t
              | None => false
              end = false) as ->.
      { destruct (st_getStub (storage w) (getPathWithoutPrefix entry)) as [t |]
          eqn:Hstub; [apply (Hfile t eq_refl) | reflexivity]. }
      mstep. mstep.
      pose proof (@preserves_readFileFromStub _ events) as Hread.
      assert (forall entryInfo info force,
                preserves events (dbToStorage entryInfo info force : M bool))
        as Hdb by (intros; unfold dbToStorage; frame).
      match goal with
      | |- events (snd (?m ?w')) = _ =>
          assert (preserves events m) as Hp by frame; rewrite Hp
      end.
      reflexivity.
Qed.


End Engine.

(** The claim of C3 as first stated fails on any path: here both entry
    points run on the note of the vault and take different locks. *)
Lemma entry_points_lock_keys_counterexample :
  let w := Mem.world (Mem.cleanDB 1700000001500 "new")
                     (Mem.vault 1700000000500 "old") false in
  locks (snd (anyHandlerProcessesFileEvent
                (mkItem CHANGED (Mem.noteStub 1700000000500)) w))
  = ["processFileEvent-note.md"] /\
  locks (snd (anyProcessReplicatedDoc
                (Mem.noteRev "2-a" 1700000001500 "new") w))
  = ["note.md"] /\
  "processFileEvent-note.md" <> "note.md".
Proof. repeat split. discriminate. Qed.

Lemma entry_points_lock_keys_witness :
  let w := Mem.world (Mem.cleanDB 1700000001500 "new")
                     (Mem.vault 1700000000500 "old") false in
  locks (snd (anyHandlerProcessesFileEvent
                (mkItem DELETE (Mem.noteStub 1700000000500)) w))
  = ["processFileEvent-note.md"].
Proof.
  intros w. destruct entry_points_lock_keys as (Hevent & _ & _).
  exact (Hevent (mkItem DELETE (Mem.noteStub 1700000000500)) w eq_refl eq_refl).
Defined.

Lemma dbToStorage_freshness_gate_witness :
  let w := Mem.world (Mem.cleanDB 1700000001500 "new")
                     (Mem.vault 1700000000500 "old") false in
  isDocContentSame (DataChunks ["new"]) (DataChunks ["old"]) = false /\
  dbToStorage (inl "note.md") (Some (inl "note.md")) false w
  = (Normal true,
     withLogs [("File note.md is not changed", LOG_LEVEL_VERBOSE)] w).
Proof.
  intros w. split; [reflexivity |].
  destruct (dbToStorage_freshness_gate (inl "note.md") (Some (inl "note.md")) w
              (Mem.noteRev "2-a" 1700000001500 "new")
              (Mem.noteRev "2-a" 1700000001500 "new")
              (Mem.noteStub 1700000000500)) as [Heven _].
  - repeat split. left. reflexivity.
  - exact (Heven eq_refl).
Defined.

Lemma dbToStorage_resolves_winner_witness :
  let w := Mem.world Mem.conflictedDB (Mem.vault 1700000000500 "old") true in
  let r := dbToStorageWithSpecificRev (Some (inl "note.md")) "2-a" true w in
  fst r = Normal true /\
  Mem.files (storage (snd r))
  = [("note.md", mkFile (mkStub "note.md" "note.md"
                           (mkStat 0 1700000009000 0) false false)
                        (DataChunks ["theirs"]))].
Proof.
  intros w r.
  destruct dbToStorage_resolves_winner as (_ & _ & Hwrite).
  destruct (Hwrite (Some (inl "note.md")) (inl (Mem.noteStub 1700000000500))
              "2-a" w (Mem.noteRev "2-a" 1700000007000 "mine")
              (Mem.noteRev "2-b" 1700000009000 "theirs")
              (Mem.noteRev "2-b" 1700000009000 "theirs")) as [E1 E2].
  - reflexivity.
  - reflexivity.
  - reflexivity.
  - right. reflexivity.
  - intros f Hf. injection Hf as <-. reflexivity.
  - repeat split.
  - fold r in E1, E2. split; [exact E1 | rewrite E2; reflexivity].
Defined.

Lemma deleteFileFromDB_conflict_asymmetry_witness :
  let file := inr (inl (Mem.noteStub 1700000000500)) in
  (let w := Mem.world Mem.conflictedDB (Mem.vault 1700000000500 "old") false in
   deleteFileFromDB file w
   = (Normal (Some true),
      withDb [("note.md", [Mem.noteRev "2-a" 1700000007000 "mine"])] w)) /\
  (let w := Mem.world (Mem.cleanDB 1700000007000 "mine")
                      (Mem.vault 1700000000500 "old") false in
   deleteFileFromDB file w
   = (Normal (Some true),
      withDb [("note.md",
               [Mem.tombstone (Mem.noteRev "2-a" 1700000007000 "mine")])] w)).
Proof.
  intros file. split; intros w.
  - destruct (deleteFileFromDB_conflict_asymmetry file w
                (inl (Mem.noteStub 1700000000500)) eq_refl eq_refl) as [Hlive _].
    destruct (Hlive (Mem.noteRev "2-b" 1700000009000 "theirs")
                eq_refl eq_refl eq_refl) as [Hconf _].
    exact (Hconf ltac:(discriminate)).
  - destruct (deleteFileFromDB_conflict_asymmetry file w
                (inl (Mem.noteStub 1700000000500)) eq_refl eq_refl) as [Hlive _].
    destruct (Hlive (Mem.noteRev "2-a" 1700000007000 "mine")
                eq_refl eq_refl eq_refl) as [_ Hclean].
    exact (Hclean eq_refl).
Defined.

Lemma dbToStorage_conflict_deferred_witness :
  let w := Mem.world Mem.conflictedDB (Mem.vault 1700000000500 "old") false in
  dbToStorage (inl "note.md") (Some (inl "note.md")) false w
  = (Normal true, withCore ["note.md"] w) /\
  storage (snd (dbToStorage (inl "note.md") (Some (inl "note.md")) false w))
  = Mem.vault 1700000000500 "old".
Proof.
  intros w.
  destruct (dbToStorage_conflict_deferred (inl "note.md") (Some (inl "note.md"))
              false w (Mem.noteRev "2-b" 1700000009000 "theirs")) as [E1 E2].
  - reflexivity.
  - discriminate.
  - reflexivity.
  - split; [exact E1 | exact E2].
Defined.


Lemma engine_exceptions_witness :
  exists msg,
    fst (readFileFromStub (inl (Mem.noteStub 1700000000500))
           (Mem.world [] (Mem.mkStorage [] [] []) false)) = Throw msg.
Proof.
  destruct (@engine_exceptions Mem.lib Mem.MemDB Mem.MemStorage Mem.MemCore _ _ _)
    as (Hread & _).
  apply Hread. exists (Mem.noteStub 1700000000500). split; reflexivity.
Defined.

Lemma store_and_delete_decline_witness :
  storeFileToDB (inl "ghost.md") false false
    (Mem.world (Mem.cleanDB 1700000001500 "new") (Mem.vault 1700000000500 "old") false)
  = (Normal (Some false),
     withLogs [("File ghost.md is not exist on the storage", LOG_LEVEL_VERBOSE)]
       (Mem.world (Mem.cleanDB 1700000001500 "new")
                  (Mem.vault 1700000000500 "old") false)).
Proof.
  destruct (store_and_delete_decline (inl "ghost.md") false false
              (Mem.world (Mem.cleanDB 1700000001500 "new")
                         (Mem.vault 1700000000500 "old") false))
    as [Hmissing _].
  destruct Hmissing as [Hstore _]; [reflexivity | exact Hstore].
Defined.

Lemma storeFileToDB_creates_and_forces_witness :
  storeFileToDB (inl "note.md") false false
    (Mem.world [] (Mem.vault 1700000000500 "old") false)
  = storeResult (db_store (Mem.localNote 1700000000500 "old") None None)
      (Mem.world [] (Mem.vault 1700000000500 "old") false) /\
  storeFileToDB (inl "note.md") false true
    (Mem.world (Mem.cleanDB 1700000001500 "new") (Mem.vault 1700000000500 "old") false)
  = storeResult (db_createChunks (Mem.localNote 1700000000500 "old") true true)
      (Mem.world (Mem.cleanDB 1700000001500 "new")
                 (Mem.vault 1700000000500 "old") false).
Proof.
  split.
  - destruct (storeFileToDB_creates_and_forces (inl "note.md") false false
                (Mem.world [] (Mem.vault 1700000000500 "old") false)
                (inl (Mem.noteStub 1700000000500))
                (Mem.localNote 1700000000500 "old"))
      as [Hnew _]; [reflexivity | reflexivity | reflexivity |].
    apply Hnew. reflexivity.
  - destruct (storeFileToDB_creates_and_forces (inl "note.md") false true
                (Mem.world (Mem.cleanDB 1700000001500 "new")
                           (Mem.vault 1700000000500 "old") false)
                (inl (Mem.noteStub 1700000000500))
                (Mem.localNote 1700000000500 "old"))
      as [_ Hforced]; [reflexivity | reflexivity | reflexivity |].
    apply (Hforced (Mem.noteRev "2-a" 1700000001500 "new"));
      [reflexivity | right; reflexivity].
Defined.

Lemma storeFileToDB_compares_when_even_witness :
  fst (storeFileToDB (inl "note.md") false false
         (Mem.world (Mem.cleanDB 1700000001500 "same")
                    (Mem.vault 1700000000500 "same") false))
  = Normal (Some true) /\
  storeFileToDB (inl "note.md") false false
    (Mem.world (Mem.cleanDB 1700000009000 "same") (Mem.vault 1700000000500 "same") false)
  = storeResult (db_store (Mem.localNote 1700000000500 "same") (Some false) (Some true))
      (Mem.world (Mem.cleanDB 1700000009000 "same")
                 (Mem.vault 1700000000500 "same") false).
Proof.
  split.
  - destruct (storeFileToDB_compares_when_even (inl "note.md")
                (Mem.world (Mem.cleanDB 1700000001500 "same")
                           (Mem.vault 1700000000500 "same") false)
                (inl (Mem.noteStub 1700000000500))
                (Mem.localNote 1700000000500 "same")
                (Mem.noteRev "2-a" 1700000001500 "same")) as (_ & Heven & _);
      [reflexivity | reflexivity | reflexivity | reflexivity |].
    rewrite Heven; reflexivity.
  - destruct (storeFileToDB_compares_when_even (inl "note.md")
                (Mem.world (Mem.cleanDB 1700000009000 "same")
                           (Mem.vault 1700000000500 "same") false)
                (inl (Mem.noteStub 1700000000500))
                (Mem.localNote 1700000000500 "same")
                (Mem.noteRev "2-a" 1700000009000 "same")) as (Hnewer & _);
      [reflexivity | reflexivity | reflexivity | reflexivity |].
    apply (Hnewer TARGET_IS_NEW); [reflexivity | discriminate].
Defined.

Lemma dbToStorage_fails_without_document_witness :
  dbToStorage (inl "ghost.md") None false
    (Mem.world (Mem.cleanDB 1700000001500 "new") (Mem.vault 1700000000500 "old") false)
  = (Normal false,
     withLogs [("File ghost.md is not exist on the database", LOG_LEVEL_VERBOSE)]
       (Mem.world (Mem.cleanDB 1700000001500 "new")
                  (Mem.vault 1700000000500 "old") false)).
Proof.
  destruct (dbToStorage_fails_without_document (inl "ghost.md") None false
              (Mem.world (Mem.cleanDB 1700000001500 "new")
                         (Mem.vault 1700000000500 "old") false))
    as [Hmissing _].
  apply Hmissing. reflexivity.
Defined.

Lemma dbToStorage_leaves_folders_witness :
  fst (dbToStorage (inl "note.md") None true
         (Mem.world (Mem.cleanDB 1700000001500 "new")
            (Mem.mkStorage
               [("note.md",
                 mkFile (mkStub "note.md" "note.md" (mkStat 0 0 0) true false)
                        (DataChunks []))] [] []) false))
  = Normal true.
Proof.
  rewrite (dbToStorage_leaves_folders (inl "note.md") None true
             (Mem.world (Mem.cleanDB 1700000001500 "new")
                (Mem.mkStorage
                   [("note.md",
                     mkFile (mkStub "note.md" "note.md" (mkStat 0 0 0) true false)
                            (DataChunks []))] [] []) false)
             (Mem.noteRev "2-a" 1700000001500 "new")
             (mkStub "note.md" "note.md" (mkStat 0 0 0) true false));
    [reflexivity | reflexivity | left; reflexivity | reflexivity | reflexivity].
Defined.

Lemma dbToStorage_transfers_deletion_witness :
  dbToStorage (inl "note.md") (Some (inl "note.md")) false
    (Mem.world [("note.md", [Mem.tombstone (Mem.noteRev "3-c" 1700000009000 "gone")])]
               (Mem.vault 1700000000500 "old") false)
  = (Normal true,
     withStorage (Mem.mkStorage [] [] [])
       (Mem.world
          [("note.md", [Mem.tombstone (Mem.noteRev "3-c" 1700000009000 "gone")])]
          (Mem.vault 1700000000500 "old") false)).
Proof.
  destruct (dbToStorage_transfers_deletion (inl "note.md") (Some (inl "note.md"))
              false
              (Mem.world
                 [("note.md",
                   [Mem.tombstone (Mem.noteRev "3-c" 1700000009000 "gone")])]
                 (Mem.vault 1700000000500 "old") false)
              (Mem.tombstone (Mem.noteRev "3-c" 1700000009000 "gone")))
    as [Hfile _]; [reflexivity | left; reflexivity | left; reflexivity |].
  apply (Hfile (Mem.noteStub 1700000000500)); reflexivity.
Defined.

Lemma dbToStorage_creates_missing_file_witness :
  Mem.files
    (storage (snd (dbToStorage (inl "note.md") None false
                     (Mem.world (Mem.cleanDB 1700000001500 "new")
                                (Mem.mkStorage [] [] []) false))))
  = [("note.md",
      mkFile (mkStub "note.md" "note.md" (mkStat 0 1700000001500 0) false false)
             (DataChunks ["new"]))] /\
  Mem.fileEvents
    (storage (snd (dbToStorage (inl "note.md") None false
                     (Mem.world (Mem.cleanDB 1700000001500 "new")
                                (Mem.mkStorage [] [] []) false))))
  = [("create", "note.md")].
Proof.
  destruct (dbToStorage_creates_missing_file (inl "note.md") None false
              (Mem.world (Mem.cleanDB 1700000001500 "new")
                         (Mem.mkStorage [] [] []) false)
              (Mem.noteRev "2-a" 1700000001500 "new")
              (Mem.noteRev "2-a" 1700000001500 "new"))
    as (_ & Hstorage & _);
    [reflexivity | left; reflexivity | reflexivity | repeat split |].
  rewrite Hstorage. split; reflexivity.
Defined.

Lemma resolveConflicted_never_true_witness :
  fst (resolveConflictedByDeletingRevision (inl "note.md") "9-z"
         (Mem.world Mem.conflictedDB (Mem.vault 1700000000500 "old") false))
  = Normal (Some false).
Proof.
  destruct (resolveConflicted_never_true (inl "note.md") "9-z"
              (Mem.world Mem.conflictedDB (Mem.vault 1700000000500 "old") false))
    as (_ & _ & Hfailed).
  destruct Hfailed as [Hfalse _]; [reflexivity | exact Hfalse].
Defined.

Lemma fileEvent_dispatch_witness :
  anyHandlerProcessesFileEvent (mkItem INTERNAL (Mem.noteStub 1700000000500))
    (Mem.world [] (Mem.vault 1700000000500 "old") false)
  = (Normal (Some false),
     withLocks ["processFileEvent-note.md"]
       (Mem.world [] (Mem.vault 1700000000500 "old") false)).
Proof.
  destruct (fileEvent_dispatch (mkItem INTERNAL (Mem.noteStub 1700000000500))
              (Mem.world [] (Mem.vault 1700000000500 "old") false))
    as (_ & _ & Hpass).
  apply Hpass; reflexivity.
Defined.

Lemma replicatedDoc_intake_witness :
  events (snd (anyProcessReplicatedDoc (Mem.noteRev "2-a" 1700000001500 "new")
                 (Mem.world (Mem.cleanDB 1700000001500 "new")
                            (Mem.vault 1700000000500 "old") false)))
  = [("conflict-cancelled", "note.md")].
Proof.
  destruct (replicatedDoc_intake (Mem.noteRev "2-a" 1700000001500 "new")
              (Mem.world (Mem.cleanDB 1700000001500 "new")
                         (Mem.vault 1700000000500 "old") false))
    as (_ & _ & Hpass).
  destruct Hpass as [_ Hevent]; [reflexivity | reflexivity |].
  apply Hevent. intros t Ht. injection Ht as <-. reflexivity.
Defined.

End FileHandlerSpec.

(** * More of [src/common/utils.ts]: paths, revisions, counters, caches *)
Module UtilsMoreSpec.
Import Utils.

(** ** Splitting and joining *)

Lemma append_nil_l (s : string) : EmptyString +:+ s = s.
Proof. reflexivity. Qed.

Lemma append_cons (c : ascii) (a b : string) :
  String c a +:+ b = String c (a +:+ b).
Proof. reflexivity. Qed.

Lemma split_nonempty (sep : ascii) (s : string) : split sep s <> [].
Proof.
  destruct s as [| c r]; cbn; [discriminate |].
  destruct (Ascii.eqb c sep); [discriminate |].
  destruct (split sep r); discriminate.
Qed.

Lemma join_cons (sep x : string) (l : list string) :
  l <> [] -> join sep (x :: l) = x +:+ sep +:+ join sep l.
Proof. destruct l; [congruence | reflexivity]. Qed.

Lemma join_split (sep : ascii) (s : string) :
  join (String sep EmptyString) (split sep s) = s.
Proof.
  induction s as [| c r IH]; [reflexivity |].
  cbn [split]. destruct (Ascii.eqb_spec c sep) as [-> | Hne].
  - rewrite join_cons by apply split_nonempty. rewrite IH. reflexivity.
  - pose proof (split_nonempty sep r) as Hn.
    destruct (split sep r) as [| h t]; [congruence |].
    destruct t as [| h' t'].
    + cbn in IH |- *. rewrite IH. reflexivity.
    + rewrite join_cons by discriminate. rewrite join_cons in IH by discriminate.
      cbn. rewrite <- IH. reflexivity.
Qed.

Lemma split_segments (sep : ascii) (s : string) :
  Forall (fun seg => occurs sep seg = false) (split sep s).
Proof.
  induction s as [| c r IH]; cbn [split].
  - constructor; [reflexivity | constructor].
  - destruct (Ascii.eqb c sep) eqn:E.
    + constructor; [reflexivity | exact IH].
    + destruct (split sep r) as [| h t]; inversion IH; subst.
      * constructor; [cbn [occurs]; rewrite E; reflexivity | constructor].
      * constructor; [cbn [occurs]; rewrite E; assumption | assumption].
Qed.

Lemma split_no_sep (sep : ascii) (s : string) :
  occurs sep s = false -> split sep s = [s].
Proof.
  induction s as [| c r IH]; [reflexivity |]. cbn [occurs split].
  intros Hocc. apply orb_false_iff in Hocc as [Hc Hr].
  rewrite Hc, (IH Hr). reflexivity.
Qed.

Lemma split_app_sep (sep : ascii) (a b : string) :
  occurs sep a = false ->
  split sep (a +:+ String sep b) = a :: split sep b.
Proof.
  induction a as [| c r IH]; rewrite ?append_nil_l, ?append_cons;
    cbn [occurs split].
  - intros _. rewrite Ascii.eqb_refl. reflexivity.
  - intros Hocc. apply orb_false_iff in Hocc as [Hc Hr].
    rewrite Hc, (IH Hr). reflexivity.
Qed.

Lemma append_assoc (a b c : string) : (a +:+ b) +:+ c = a +:+ (b +:+ c).
Proof.
  induction a as [| x a IH]; [reflexivity |].
  rewrite !append_cons, IH. reflexivity.
Qed.

Lemma append_empty_r (a : string) : a +:+ EmptyString = a.
Proof.
  induction a as [| x a IH]; [reflexivity |].
  rewrite append_cons, IH. reflexivity.
Qed.

Lemma join_snoc (sep : string) (l : list string) (x : string) :
  join sep (l ++ [x]) = leading sep l +:+ x.
Proof.
  induction l as [| y l IH]; [reflexivity |].
  change ((y :: l) ++ [x]) with (y :: (l ++ [x])).
  rewrite join_cons by (intros E; destruct l; discriminate E). rewrite IH.
  destruct l as [| z l]; cbn [leading].
  - rewrite append_nil_l. change (join sep [y]) with y.
    rewrite append_assoc. reflexivity.
  - rewrite (join_cons sep y (z :: l)) by discriminate.
    rewrite !append_assoc. reflexivity.
Qed.

Lemma removelast_last {A} (l : list A) (d : A) :
  l <> [] -> l = removelast l ++ [List.last l d].
Proof. intros Hl. apply app_removelast_last. exact Hl. Qed.

Lemma last_in_Forall {A} (P : A -> Prop) (l : list A) (d : A) :
  l <> [] -> Forall P l -> P (List.last l d).
Proof.
  induction l as [| x l IH]; [congruence |]. intros _ Hall.
  inversion Hall; subst. destruct l as [| y l]; [assumption |].
  apply IH; [discriminate | assumption].
Qed.

(** The shape shared by [id2path] and [path2id]: the text after the last
    colon is replaced, the text up to it is kept. *)
Lemma fix_last_segment (f : string -> string) (s : string) :
  exists pre tail : string,
    s = pre +:+ tail /\ occurs ":" tail = false /\
    (pre = EmptyString \/ exists q, pre = q +:+ ":") /\
    List.last (split ":" s) EmptyString = tail /\
    join ":" (removelast (split ":" s) ++ [f tail]) = pre +:+ f tail.
Proof.
  pose proof (split_nonempty ":" s) as Hne.
  exists (leading ":" (removelast (split ":" s))),
         (List.last (split ":" s) EmptyString).
  split; [| split; [| split; [| split]]].
  - rewrite <- join_snoc, <- removelast_last by exact Hne.
    symmetry. apply (join_split ":" s).
  - apply last_in_Forall; [exact Hne | apply split_segments].
  - destruct (removelast (split ":" s)) as [| x l]; [left; reflexivity |].
    right. exists (join ":" (x :: l)). reflexivity.
  - reflexivity.
  - apply join_snoc.
Qed.

Section Paths.
Context `{CommonLib}.

(** X1: [id2path] keeps the text of the identifier's file name up to its
    last colon and replaces what follows by its normal form, and
    [path2id] hands the file name rewritten in the same way to
    [path2id_base]; so a file name whose last segment is already normal
    passes through [id2path] unchanged. *)
Theorem id2path_normalises_last_segment
    (path2id_base : string -> option string -> bool -> string)
    (id : string) (entry : Entry) :
  (exists pre tail : string,
     id2path_base id entry = pre +:+ tail /\ occurs ":" tail = false /\
     (pre = EmptyString \/ exists q, pre = q +:+ ":") /\
     id2path id entry = pre +:+ normalizePath tail /\
     (normalizePath tail = tail -> id2path id entry = id2path_base id entry)) /\
  (forall (filename : string) (pass : option string) (ci : bool),
     exists pre tail : string,
       filename = pre +:+ tail /\ occurs ":" tail = false /\
       (pre = EmptyString \/ exists q, pre = q +:+ ":") /\
       path2id path2id_base filename pass ci
       = path2id_base (pre +:+ normalizePath tail) pass ci).
Proof.
  split.
  - destruct (fix_last_segment normalizePath (id2path_base id entry))
      as (pre & tail & Hs & Hocc & Hpre & Hlast & Hjoin).
    exists pre, tail. split; [exact Hs |]. split; [exact Hocc |].
    split; [exact Hpre |].
    assert (id2path id entry = pre +:+ normalizePath tail) as E.
    { unfold id2path. cbv zeta. rewrite Hlast. exact Hjoin. }
    split; [exact E |]. intros Hnorm. rewrite E, Hnorm. symmetry. exact Hs.
  - intros filename pass ci.
    destruct (fix_last_segment normalizePath filename)
      as (pre & tail & Hs & Hocc & Hpre & Hlast & Hjoin).
    exists pre, tail. split; [exact Hs |]. split; [exact Hocc |].
    split; [exact Hpre |].
    unfold path2id. cbv zeta. rewrite Hlast, Hjoin. reflexivity.
Qed.

End Paths.

(** ** Prefixes *)

Lemma prefix_append (p s : string) : String.prefix p (p +:+ s) = true.
Proof.
  induction p as [| c p IH]; [destruct s; reflexivity |].
  rewrite append_cons. cbn [String.prefix].
  destruct (ascii_dec c c); [exact IH | congruence].
Qed.

Lemma prefix_decompose (p t : string) :
  String.prefix p t = true -> exists r, t = p +:+ r.
Proof.
  revert t. induction p as [| c p IH]; intros t Hp.
  - exists t. reflexivity.
  - destruct t as [| c' t]; [discriminate |]. cbn [String.prefix] in Hp.
    destruct (ascii_dec c c') as [<- |]; [| discriminate].
    destruct (IH t Hp) as [r ->]. exists r. reflexivity.
Qed.

Lemma substring_all (s : string) : String.substring 0 (String.length s) s = s.
Proof. induction s as [| c s IH]; cbn; [reflexivity | rewrite IH; reflexivity]. Qed.

Lemma substringFrom_append (p s : string) :
  substringFrom (String.length p) (p +:+ s) = s.
Proof.
  unfold substringFrom. induction p as [| c p IH].
  - rewrite append_nil_l. cbn [String.length]. rewrite Nat.sub_0_r.
    apply substring_all.
  - rewrite append_cons. cbn [String.length String.substring Nat.sub]. exact IH.
Qed.

Lemma string_length_append (a b : string) :
  String.length (a +:+ b) = (String.length a + String.length b)%nat.
Proof.
  induction a as [| c a IH]; [reflexivity |].
  rewrite append_cons. cbn [String.length]. rewrite IH. reflexivity.
Qed.

(** X2: [trimPrefix] removes the prefix when the target starts with it
    (what is left, put after the prefix, is the target again), returns the
    target itself when it does not, and never returns a longer string. *)
Theorem trimPrefix_removes_prefix (target prefix : string) :
  (startsWith target prefix = true ->
   prefix +:+ trimPrefix target prefix = target) /\
  (startsWith target prefix = false -> trimPrefix target prefix = target) /\
  trimPrefix (prefix +:+ target) prefix = target /\
  (String.length (trimPrefix target prefix) <= String.length target)%nat.
Proof.
  unfold trimPrefix, startsWith. split; [| split; [| split]].
  - intros Hp. rewrite Hp. destruct (prefix_decompose _ _ Hp) as [r ->].
    rewrite substringFrom_append. reflexivity.
  - intros Hp. rewrite Hp. reflexivity.
  - rewrite prefix_append. apply substringFrom_append.
  - destruct (String.prefix prefix target) eqn:Hp; [| lia].
    destruct (prefix_decompose _ _ Hp) as [r ->].
    rewrite substringFrom_append, string_length_append. lia.
Qed.

Lemma trimPrefix_removes_prefix_witness :
  "i:" +:+ trimPrefix "i:.obsidian/app.json" "i:" = "i:.obsidian/app.json" /\
  trimPrefix "notes/a.md" "i:" = "notes/a.md".
Proof.
  split.
  - destruct (trimPrefix_removes_prefix "i:.obsidian/app.json" "i:")
      as (Hstarts & _).
    exact (Hstarts eq_refl).
  - destruct (trimPrefix_removes_prefix "notes/a.md" "i:") as (_ & Hother & _).
    exact (Hother eq_refl).
Defined.


Lemma id2path_normalises_last_segment_witness :
  id2path "i:.obsidian/app.json"
    (mkEntry "i:.obsidian/app.json" None "i:.obsidian/app.json" 0 0 0 None None [])
  = "i:.obsidian/app.json".
Proof.
  destruct (id2path_normalises_last_segment (fun f _ _ => f)
              "i:.obsidian/app.json"
              (mkEntry "i:.obsidian/app.json" None "i:.obsidian/app.json"
                       0 0 0 None None []))
    as [(pre & tail & _ & _ & _ & _ & Hfixed) _].
  exact (Hfixed eq_refl).
Defined.

Section InternalMetadata.
Context `{CommonLib}.
Variables (ICHeader ICXHeader : string) (ICHeaderLength : nat).

(** X3: with [ICHeaderLength] the length of [ICHeader], the identifier
    made by [id2InternalMetadataId] is recognised by [isInternalMetadata]
    and [stripInternalMetadataPrefix] gives the original back; and an
    identifier that [isInternalMetadata] accepts is rebuilt from its
    stripped form. *)
Theorem internalMetadataId_round_trip (id : string) :
  ICHeaderLength = String.length ICHeader ->
  isInternalMetadata ICHeader (id2InternalMetadataId ICHeader id) = true /\
  stripInternalMetadataPrefix ICHeaderLength (id2InternalMetadataId ICHeader id)
  = id /\
  (isInternalMetadata ICHeader id = true ->
   id2InternalMetadataId ICHeader (stripInternalMetadataPrefix ICHeaderLength id)
   = id).
Proof.
  intros ->. unfold isInternalMetadata, stripInternalMetadataPrefix,
    id2InternalMetadataId, startsWith.
  split; [apply prefix_append |]. split; [apply substringFrom_append |].
  intros Hp. destruct (prefix_decompose _ _ Hp) as [r ->].
  rewrite substringFrom_append. reflexivity.
Qed.

(** X4: the database path of an internal file is the storage path under
    [ICHeader]: it is recognised as internal, both as a path and as an
    identifier, and stripping the header gives the storage path; the
    database path of any other file descriptor is its storage path; a
    path that starts with [ICXHeader] is returned as it is. *)
Theorem databasePath_of_storagePath (f : UXFileInfoStub) (p : string) :
  ICHeaderLength = String.length ICHeader ->
  (isInternal f = true ->
   isInternalFile ICHeader
     (inl (getDatabasePathFromUXFileInfo ICHeader ICXHeader (inr f))) = true /\
   isInternalMetadata ICHeader
     (getDatabasePathFromUXFileInfo ICHeader ICXHeader (inr f)) = true /\
   stripInternalMetadataPrefix ICHeaderLength
     (getDatabasePathFromUXFileInfo ICHeader ICXHeader (inr f))
   = getStoragePathFromUXFileInfo (ByStub f)) /\
  (isInternal f = false ->
   getDatabasePathFromUXFileInfo ICHeader ICXHeader (inr f)
   = getStoragePathFromUXFileInfo (ByStub f)) /\
  (startsWith p ICXHeader = true ->
   getDatabasePathFromUXFileInfo ICHeader ICXHeader (inl p) = p).
Proof.
  intros ->. split; [| split].
  - intros Hint.
    unfold getDatabasePathFromUXFileInfo, isInternalFile, isInternalMetadata,
      stripInternalMetadataPrefix, getStoragePathFromUXFileInfo, startsWith.
    rewrite Hint. cbn [arg_path].
    rewrite prefix_append, substringFrom_append. auto.
  - intros Hint.
    unfold getDatabasePathFromUXFileInfo, isInternalFile,
      getStoragePathFromUXFileInfo.
    rewrite Hint. reflexivity.
  - intros Hp. unfold getDatabasePathFromUXFileInfo. rewrite Hp. reflexivity.
Qed.

End InternalMetadata.

Lemma internalMetadataId_round_trip_witness :
  stripInternalMetadataPrefix 2 (id2InternalMetadataId "i:" ".obsidian/app.json")
  = ".obsidian/app.json" /\
  id2InternalMetadataId "i:" (stripInternalMetadataPrefix 2 "i:.obsidian/app.json")
  = "i:.obsidian/app.json".
Proof.
  split.
  - destruct (internalMetadataId_round_trip "i:" 2 ".obsidian/app.json" eq_refl)
      as (_ & Hstrip & _).
    exact Hstrip.
  - destruct (internalMetadataId_round_trip "i:" 2 "i:.obsidian/app.json" eq_refl)
      as (_ & _ & Hback).
    exact (Hback eq_refl).
Defined.

Lemma databasePath_of_storagePath_witness :
  stripInternalMetadataPrefix 2
    (getDatabasePathFromUXFileInfo "i:" "ix:"
       (inr (mkStub "app.json" ".obsidian/app.json" (mkStat 0 0 0) false true)))
  = ".obsidian/app.json" /\
  getDatabasePathFromUXFileInfo "i:" "ix:" (inl "ix:snippets/a.css")
  = "ix:snippets/a.css".
Proof.
  destruct (databasePath_of_storagePath "i:" "ix:" 2
              (mkStub "app.json" ".obsidian/app.json" (mkStat 0 0 0) false true)
              "ix:snippets/a.css" eq_refl) as (Hint & _ & Hicx).
  destruct (Hint eq_refl) as (_ & _ & Hstrip).
  split; [exact Hstrip | exact (Hicx eq_refl)].
Defined.


(** ** Revisions *)

Lemma split_two_segments (sep : ascii) (s : string) :
  occurs sep s = true ->
  exists a b rest, split sep s = a :: b :: rest.
Proof.
  induction s as [| c r IH]; [discriminate |]. cbn [occurs split].
  destruct (Ascii.eqb c sep) eqn:E.
  - intros _. pose proof (split_nonempty sep r) as Hn.
    destruct (split sep r) as [| b rest]; [congruence |]. eauto.
  - cbn [orb]. intros Hocc. destruct (IH Hocc) as (a & b & rest & ->). eauto.
Qed.

Lemma occurs_substring (c : ascii) (n : nat) (s : string) :
  occurs c s = false -> occurs c (String.substring 0 n s) = false.
Proof.
  revert n. induction s as [| x s IH]; intros n Hocc.
  - destruct n; reflexivity.
  - destruct n as [| n]; [reflexivity |]. cbn [String.substring occurs] in *.
    apply orb_false_iff in Hocc as [Hx Hs]. rewrite Hx, (IH n Hs). reflexivity.
Qed.

Lemma substring_idempotent (n : nat) (s : string) :
  String.substring 0 n (String.substring 0 n s) = String.substring 0 n s.
Proof.
  revert n. induction s as [| x s IH]; intros n.
  - destruct n; reflexivity.
  - destruct n as [| n]; [reflexivity |]. cbn [String.substring].
    rewrite IH. reflexivity.
Qed.

Lemma length_substring_le (n : nat) (s : string) :
  (String.length (String.substring 0 n s) <= n)%nat.
Proof.
  revert n. induction s as [| x s IH]; intros n.
  - destruct n; cbn; lia.
  - destruct n as [| n]; [cbn; lia |]. cbn [String.substring String.length].
    specialize (IH n). lia.
Qed.

Lemma displayRev_segments (number hash : string) (rest : list string)
    (rev : string) :
  split "-" rev = number :: hash :: rest ->
  displayRev rev = Normal (number +:+ "-" +:+ String.substring 0 6 hash) /\
  occurs "-" number = false /\ occurs "-" hash = false.
Proof.
  intros Hs. unfold displayRev. rewrite Hs. split; [reflexivity |].
  pose proof (split_segments "-" rev) as Hall. rewrite Hs in Hall.
  inversion Hall as [| ? ? Hn Hall']; subst.
  inversion Hall' as [| ? ? Hh ?]; subst. auto.
Qed.

Lemma displayRev_two (number hash : string) :
  occurs "-" number = false -> occurs "-" hash = false ->
  displayRev (number +:+ "-" +:+ hash)
  = Normal (number +:+ "-" +:+ String.substring 0 6 hash).
Proof.
  intros Hn Hh. unfold displayRev.
  change ("-" +:+ hash) with (String "-" hash).
  rewrite (split_app_sep "-" number hash Hn), (split_no_sep "-" hash Hh).
  reflexivity.
Qed.

Lemma displayRev_throws_iff (rev : string) :
  (exists msg, displayRev rev = Throw msg) <-> occurs "-" rev = false.
Proof.
  split.
  - intros [msg Hthrow]. destruct (occurs "-" rev) eqn:Hocc; [| reflexivity].
    destruct (split_two_segments _ _ Hocc) as (a & b & rest & Hs).
    destruct (displayRev_segments _ _ _ _ Hs) as [E _]. congruence.
  - intros Hocc. unfold displayRev. rewrite (split_no_sep _ _ Hocc). eauto.
Qed.

(** The first two segments of a revision and what follows them: the
    revision is [number], a dash, [hash], and then nothing or a dash and
    more. *)
Lemma displayRev_decompose (number hash : string) (rest : list string)
    (rev : string) :
  split "-" rev = number :: hash :: rest ->
  exists tail : string,
    rev = number +:+ "-" +:+ hash +:+ tail /\
    (tail = EmptyString \/ exists more, tail = "-" +:+ more).
Proof.
  intros Hs. pose proof (join_split "-" rev) as Hj. rewrite Hs in Hj.
  rewrite join_cons in Hj by discriminate.
  destruct rest as [| third rest].
  - exists EmptyString. split; [| left; reflexivity].
    rewrite append_empty_r. symmetry. exact Hj.
  - exists ("-" +:+ join "-" (third :: rest)). split; [| right; eauto].
    rewrite (join_cons "-" hash (third :: rest)) in Hj by discriminate.
    symmetry. exact Hj.
Qed.

Lemma displayRev_first_two (number hash tail : string) :
  occurs "-" number = false -> occurs "-" hash = false ->
  tail = EmptyString \/ (exists more, tail = "-" +:+ more) ->
  displayRev (number +:+ "-" +:+ hash +:+ tail)
  = Normal (number +:+ "-" +:+ String.substring 0 6 hash).
Proof.
  intros Hn Hh [-> | [more ->]]; unfold displayRev.
  - rewrite append_empty_r.
    change ("-" +:+ hash) with (String "-" hash).
    rewrite (split_app_sep "-" number hash Hn), (split_no_sep "-" hash Hh).
    reflexivity.
  - change ("-" +:+ hash +:+ "-" +:+ more)
      with (String "-" (hash +:+ String "-" more)).
    rewrite (split_app_sep "-" number _ Hn), (split_app_sep "-" hash more Hh).
    reflexivity.
Qed.

(** X5: [displayRev] raises exactly on a revision without a dash; every
    other revision is [number], a dash, [hash] and then nothing or a dash
    and more, with no dash in [number] and [hash], and the result is
    [number], a dash and the first six characters of [hash], whatever
    follows the second dash; so the result is at most seven characters
    longer than [number], and a second [displayRev] leaves it unchanged. *)
Theorem displayRev_shortens_hash (rev : string) :
  ((exists msg, displayRev rev = Throw msg) <-> occurs "-" rev = false) /\
  (forall number hash tail : string,
     occurs "-" number = false -> occurs "-" hash = false ->
     tail = EmptyString \/ (exists more, tail = "-" +:+ more) ->
     displayRev (number +:+ "-" +:+ hash +:+ tail)
     = Normal (number +:+ "-" +:+ String.substring 0 6 hash)) /\
  (forall shown : string,
     displayRev rev = Normal shown ->
     displayRev shown = Normal shown /\
     exists number hash tail : string,
       rev = number +:+ "-" +:+ hash +:+ tail /\
       occurs "-" number = false /\ occurs "-" hash = false /\
       (tail = EmptyString \/ exists more, tail = "-" +:+ more) /\
       shown = number +:+ "-" +:+ String.substring 0 6 hash /\
       (String.length shown <= String.length number + 7)%nat).
Proof.
  split; [| split].
  - apply displayRev_throws_iff.
  - intros number hash tail. apply displayRev_first_two.
  - intros shown Hshown.
    destruct (occurs "-" rev) eqn:Hocc.
    + destruct (split_two_segments _ _ Hocc) as (a & b & rest & Hs).
      destruct (displayRev_segments _ _ _ _ Hs) as (E & Ha & Hb).
      rewrite E in Hshown. injection Hshown as <-. split.
      * rewrite displayRev_two; [| exact Ha | apply occurs_substring; exact Hb].
        rewrite substring_idempotent. reflexivity.
      * destruct (displayRev_decompose _ _ _ _ Hs) as (tail & Hrev & Htail).
        exists a, b, tail. repeat split; try assumption.
        rewrite !string_length_append.
        pose proof (length_substring_le 6 b). cbn [String.length]. lia.
    + unfold displayRev in Hshown. rewrite (split_no_sep _ _ Hocc) in Hshown.
      discriminate.
Qed.

Lemma displayRev_shortens_hash_witness :
  displayRev "12-0123456789abcdef" = Normal "12-012345" /\
  displayRev "1-abc-def" = Normal "1-abc" /\
  displayRev "12-012345" = Normal "12-012345".
Proof.
  destruct (displayRev_shortens_hash "12-0123456789abcdef") as (_ & Hfmt & Hidem).
  split; [| split].
  - exact (Hfmt "12" "0123456789abcdef" EmptyString eq_refl eq_refl
             (or_introl eq_refl)).
  - exact (Hfmt "1" "abc" "-def" eq_refl eq_refl
             (or_intror (ex_intro _ "def" eq_refl))).
  - destruct (Hidem "12-012345" eq_refl) as [Hagain _]. exact Hagain.
Defined.


Section DocProps.
Context `{CommonLib}.

(** X6: [getDocProps] raises exactly when the document has a non-empty
    revision without a dash; otherwise the revision shown for a missing or
    empty revision is ["0-NOREVS"], the deleted flag is set exactly for
    the documents the file handler treats as deleted, and the shortened
    identifier has at most ten characters. *)
Theorem getDocProps_flags (doc : Entry) :
  ((exists msg, getDocProps doc = Throw msg) <->
   exists r, _rev doc = Some r /\ r <> EmptyString /\ occurs "-" r = false) /\
  (forall p : DocumentProps,
     getDocProps doc = Normal p ->
     (dp_isDeleted p = true <-> ModuleFileHandler.liveEntry (Some doc) = None) /\
     (_rev doc = None \/ _rev doc = Some EmptyString ->
      dp_revDisplay p = "0-NOREVS") /\
     dp_prefixedPath p = getPath doc /\
     dp_path p = getPathWithoutPrefix doc /\
     (String.length (dp_shortenedId p) <= 10)%nat).
Proof.
  unfold getDocProps. cbv zeta. split.
  - split.
    + intros [msg Hthrow].
      destruct (_rev doc) as [[| c r] |] eqn:Hrev; cbn [truthyString] in Hthrow;
        try discriminate.
      exists (String c r). split; [reflexivity |]. split; [discriminate |].
      apply (displayRev_throws_iff (String c r)).
      destruct (displayRev (String c r)) as [shown | msg']; [discriminate | eauto].
    + intros (r & Hrev & Hne & Hocc). rewrite Hrev.
      destruct r as [| c r]; [congruence |]. cbn [truthyString].
      apply (displayRev_throws_iff (String c r)) in Hocc as [msg' ->]. eauto.
  - intros p Hp.
    destruct (match truthyString (_rev doc) with
              | Some r => displayRev r
              | None => Normal "0-NOREVS"
              end) as [shown | msg] eqn:Hshown; [| discriminate].
    injection Hp as <-. cbn [dp_isDeleted dp_revDisplay dp_prefixedPath dp_path
                            dp_shortenedId].
    split; [| split; [| split; [| split]]].
    + unfold ModuleFileHandler.liveEntry, ModuleFileHandler.isTrue.
      destruct (default false (_deleted doc)), (default false (deleted doc));
        cbn; split; congruence.
    + intros [Hrev | Hrev]; rewrite Hrev in Hshown; cbn in Hshown; congruence.
    + reflexivity.
    + reflexivity.
    + apply length_substring_le.
Qed.

End DocProps.

Lemma getDocProps_flags_witness :
  (exists p,
     getDocProps (mkEntry "note.md" None "note.md" 0 0 0 None (Some true) [])
     = Normal p /\ dp_revDisplay p = "0-NOREVS") /\
  exists msg,
    getDocProps (mkEntry "note.md" (Some "norev") "note.md" 0 0 0 None None [])
    = Throw msg.
Proof.
  split.
  - destruct (getDocProps_flags
                (mkEntry "note.md" None "note.md" 0 0 0 None (Some true) []))
      as [_ Hflags].
    eexists. split; [reflexivity |].
    destruct (Hflags _ eq_refl) as (_ & Hnorev & _).
    exact (Hnorev (or_introl eq_refl)).
  - apply (getDocProps_flags
             (mkEntry "note.md" (Some "norev") "note.md" 0 0 0 None None [])).
    exists "norev". repeat split. discriminate.
Defined.

(** ** [onlyInNTimes] *)

Lemma onlyInNTimes_run_members (n : Z) (k : nat) (c p : Z) :
  snd (onlyInNTimes_run n k c) = c + Z.of_nat k /\
  (In p (fst (onlyInNTimes_run n k c)) <->
   n <> 0 /\ c < p <= c + Z.of_nat k /\ Z.rem (p - 1) n = 0).
Proof.
  revert c. induction k as [| k IH]; intros c.
  - cbn [onlyInNTimes_run fst snd In]. split; [lia |]. split; [tauto | lia].
  - cbn [onlyInNTimes_run]. unfold onlyInNTimes_call. cbv zeta.
    destruct (IH (c + 1)) as [Hfin Hmem].
    destruct (Z.eqb_spec n 0) as [Hn | Hn]; cbn [negb andb].
    + destruct (onlyInNTimes_run n k (c + 1)) as [rest final] eqn:Hrun.
      cbn [fst snd] in *. split; [lia |]. rewrite Hmem. lia.
    + destruct (Z.eqb_spec (Z.rem c n) 0) as [Hr | Hr];
        destruct (onlyInNTimes_run n k (c + 1)) as [rest final] eqn:Hrun;
        cbn [fst snd] in *.
      * split; [lia |]. cbn [In]. rewrite Hmem. split.
        -- intros [<- | (_ & Hp & Hrem)].
           ++ replace (c + 1 - 1) with c by lia. lia.
           ++ lia.
        -- intros (_ & Hp & Hrem).
           destruct (Z.eq_dec p (c + 1)) as [-> | Hne]; [left; reflexivity |].
           right. lia.
      * split; [lia |]. rewrite Hmem. split.
        -- intros (_ & Hp & Hrem). lia.
        -- intros (_ & Hp & Hrem).
           destruct (Z.eq_dec p (c + 1)) as [-> | Hne]; [| lia].
           replace (c + 1 - 1) with c in Hrem by lia. contradiction.
Qed.

Lemma ceil_step (n c : Z) :
  0 < n -> 0 <= c ->
  (c + 1 + n - 1) / n - (c + n - 1) / n = if Z.rem c n =? 0 then 1 else 0.
Proof.
  intros Hn Hc. rewrite Z.rem_mod_nonneg by lia.
  pose proof (Z.div_mod c n ltac:(lia)) as Hdm.
  pose proof (Z.mod_pos_bound c n Hn) as Hb.
  assert ((c + 1 + n - 1) / n = c / n + 1) as ->.
  { symmetry. apply (Z.div_unique _ _ _ (c mod n)); lia. }
  destruct (Z.eqb_spec (c mod n) 0) as [Hz | Hz].
  - assert ((c + n - 1) / n = c / n) as ->; [| lia].
    symmetry. apply (Z.div_unique _ _ _ (n - 1)); lia.
  - assert ((c + n - 1) / n = c / n + 1) as ->; [| lia].
    symmetry. apply (Z.div_unique _ _ _ (c mod n - 1)); lia.
Qed.

Lemma onlyInNTimes_run_length (n : Z) (k : nat) (c : Z) :
  0 < n -> 0 <= c ->
  Z.of_nat (List.length (fst (onlyInNTimes_run n k c)))
  = (c + Z.of_nat k + n - 1) / n - (c + n - 1) / n.
Proof.
  intros Hn. revert c. induction k as [| k IH]; intros c Hc.
  - cbn [onlyInNTimes_run fst List.length]. replace (c + Z.of_nat 0) with c by lia. lia.
  - cbn [onlyInNTimes_run]. unfold onlyInNTimes_call. cbv zeta.
    specialize (IH (c + 1) ltac:(lia)).
    pose proof (ceil_step n c Hn Hc) as Hstep.
    replace (c + Z.of_nat (Datatypes.S k)) with (c + 1 + Z.of_nat k) by lia.
    destruct (Z.eqb_spec n 0) as [Hz | Hz]; [lia |]. cbn [negb andb].
    destruct (Z.rem c n =? 0);
      destruct (onlyInNTimes_run n k (c + 1)) as [rest final] eqn:Hrun;
      cbn [fst List.length] in *; lia.
Qed.

(** X7: the closure made by [onlyInNTimes(n, proc)], called [k] times,
    has called [proc] with exactly the call numbers [p] between 1 and [k]
    for which [n] divides [p - 1] (the first call, then every [n]-th);
    with [n = 0] it never calls [proc]; for positive [n] that makes the
    number of calls [k / n] rounded up. *)
Theorem onlyInNTimes_calls (n : Z) (k : nat) :
  snd (onlyInNTimes_run n k 0) = Z.of_nat k /\
  (forall p : Z,
     In p (fst (onlyInNTimes_run n k 0)) <->
     n <> 0 /\ 1 <= p <= Z.of_nat k /\ Z.rem (p - 1) n = 0) /\
  (n = 0 -> fst (onlyInNTimes_run n k 0) = []) /\
  (0 < n ->
   Z.of_nat (List.length (fst (onlyInNTimes_run n k 0)))
   = (Z.of_nat k + n - 1) / n).
Proof.
  split; [| split; [| split]].
  - destruct (onlyInNTimes_run_members n k 0 0) as [Hfin _]. lia.
  - intros p. destruct (onlyInNTimes_run_members n k 0 p) as [_ Hmem].
    rewrite Hmem. lia.
  - intros Hn. destruct (fst (onlyInNTimes_run n k 0)) as [| p l] eqn:E;
      [reflexivity |].
    destruct (onlyInNTimes_run_members n k 0 p) as [_ Hmem].
    rewrite E in Hmem. destruct Hmem as [Hmem _].
    destruct (Hmem (or_introl eq_refl)) as [Hne _]. contradiction.
  - intros Hn. rewrite (onlyInNTimes_run_length n k 0 Hn ltac:(lia)).
    replace (0 + n - 1) with (n - 1) by lia.
    rewrite (Z.div_small (n - 1) n) by lia.
    replace (0 + Z.of_nat k + n - 1) with (Z.of_nat k + n - 1) by lia. lia.
Qed.

Lemma onlyInNTimes_calls_witness :
  fst (onlyInNTimes_run 0 7 0) = [] /\
  Z.of_nat (List.length (fst (onlyInNTimes_run 25 60 0))) = 3.
Proof.
  destruct (onlyInNTimes_calls 0 7) as (_ & _ & Hzero & _).
  destruct (onlyInNTimes_calls 25 60) as (_ & _ & _ & Hcount).
  split; [exact (Hzero eq_refl) | exact (Hcount ltac:(lia))].
Defined.


(** ** [autosaveCache] *)
Section AutosaveCache.
Context {K V : Type} `{EqDecision K}.
Variable strictNe : option V -> V -> bool.

Lemma map_get_set (m : list (K * V)) (k k' : K) (v : V) :
  map_get k' (map_set k v m) = if decide (k = k') then Some v else map_get k' m.
Proof.
  induction m as [| [k0 v0] m IH]; cbn [map_set map_get].
  - destruct (decide (k = k')); reflexivity.
  - destruct (decide (k0 = k)) as [-> | Hne]; cbn [map_get].
    + destruct (decide (k = k')); reflexivity.
    + rewrite IH. destruct (decide (k0 = k')) as [-> | Hne'];
        destruct (decide (k = k')); congruence.
Qed.

Lemma map_get_None (m : list (K * V)) (k : K) :
  map_get k m = None <-> ~ In k (List.map fst m).
Proof.
  induction m as [| [k0 v0] m IH]; cbn [map_get List.map fst In]; [tauto |].
  destruct (decide (k0 = k)) as [-> | Hne].
  - split; [discriminate | intros Hn; exfalso; auto].
  - rewrite IH. split; [intros Hn [E | Hin]; auto | auto].
Qed.

Lemma map_get_delete (m : list (K * V)) (k k' : K) :
  NoDup (List.map fst m) ->
  map_get k' (map_delete k m) = if decide (k = k') then None else map_get k' m.
Proof.
  induction m as [| [k0 v0] m IH]; cbn [map_delete map_get List.map fst].
  - intros _. destruct (decide (k = k')); reflexivity.
  - intros Hnd. apply NoDup_cons in Hnd as [Hnotin Hnd].
    destruct (decide (k0 = k)) as [-> | Hne].
    + destruct (decide (k = k')) as [<- | Hne'].
      * apply map_get_None. rewrite <- list_elem_of_In. exact Hnotin.
      * reflexivity.
    + cbn [map_get]. rewrite (IH Hnd).
      destruct (decide (k0 = k')) as [-> | Hne'];
        destruct (decide (k = k')); congruence.
Qed.

Lemma map_keys_set (m : list (K * V)) (k : K) (v : V) :
  List.map fst (map_set k v m)
  = if bool_decide (is_Some (map_get k m)) then List.map fst m
    else List.map fst m ++ [k].
Proof.
  induction m as [| [k0 v0] m IH]; cbn [map_set map_get List.map fst].
  - reflexivity.
  - destruct (decide (k0 = k)) as [-> | Hne]; cbn [List.map fst].
    + rewrite bool_decide_eq_true_2 by eauto. reflexivity.
    + rewrite IH. destruct (bool_decide (is_Some (map_get k m))); reflexivity.
Qed.

Lemma map_keys_delete (m : list (K * V)) (k : K) x :
  In x (List.map fst (map_delete k m)) -> In x (List.map fst m).
Proof.
  induction m as [| [k0 v0] m IH]; cbn [map_delete List.map fst In]; [tauto |].
  destruct (decide (k0 = k)); cbn [List.map fst In]; tauto.
Qed.

Lemma map_delete_absent (m : list (K * V)) (k : K) :
  map_get k m = None -> map_delete k m = m.
Proof.
  induction m as [| [k0 v0] m IH]; cbn [map_get map_delete]; [reflexivity |].
  destruct (decide (k0 = k)); [discriminate |]. intros Hn. rewrite (IH Hn).
  reflexivity.
Qed.

(** X8: the cache behaves as a map with distinct keys kept in insertion
    order: a value set is the value read back, other keys are not
    affected by a set or a delete, a deleted key is absent, a new key
    goes to the end of the key list and a known key keeps its place, and
    after [clear] the cache is empty. *)
Theorem autosaveCache_lookup (c : Cache) (k k' : K) (v : V) :
  NoDup (cache_keys c) ->
  cache_get k (cache_set strictNe k v c) = Some v /\
  (k' <> k -> cache_get k' (cache_set strictNe k v c) = cache_get k' c) /\
  cache_has k (snd (cache_delete k c)) = false /\
  (k' <> k -> cache_get k' (snd (cache_delete k c)) = cache_get k' c) /\
  cache_keys (cache_set strictNe k v c)
  = (if cache_has k c then cache_keys c else cache_keys c ++ [k]) /\
  NoDup (cache_keys (cache_set strictNe k v c)) /\
  NoDup (cache_keys (snd (cache_delete k c))) /\
  cache_size (cache_clear c) = 0%nat /\ cache_get k (cache_clear c) = None.
Proof.
  intros Hnd. destruct c as [m n]. unfold cache_keys in Hnd. cbn [savedData] in Hnd.
  assert (forall c' : @Cache K V, savedData (if strictNe (map_get k m) v
                                then _commit c' else c') = savedData c') as Hsd.
  { intros c'. destruct (strictNe _ _); reflexivity. }
  assert (forall c' : @Cache K V, savedData (if bool_decide (is_Some (map_get k m))
                                then _commit c' else c') = savedData c') as Hsd'.
  { intros c'. destruct (bool_decide _); reflexivity. }
  unfold cache_get, cache_has, cache_keys, cache_size, cache_set, cache_delete,
    cache_clear.
  cbn [savedData commits fst snd]. rewrite !Hsd, !Hsd'. cbn [savedData _commit].
  split; [| split; [| split; [| split; [| split; [| split; [| split]]]]]].
  - rewrite map_get_set. destruct (decide (k = k)); congruence.
  - intros Hne. rewrite map_get_set. destruct (decide (k = k')); congruence.
  - rewrite (map_get_delete m k k Hnd).
    destruct (decide (k = k)); [| congruence].
    apply bool_decide_eq_false_2. intros [x Hx]. discriminate.
  - intros Hne. rewrite (map_get_delete m k k' Hnd).
    destruct (decide (k = k')); congruence.
  - apply map_keys_set.
  - rewrite map_keys_set. case_bool_decide as Hs; [exact Hnd |].
    apply NoDup_app. split; [exact Hnd |]. split; [| apply NoDup_singleton].
    intros x Hx Hk. apply list_elem_of_singleton in Hk as ->.
    apply Hs. destruct (map_get k m) eqn:E; [eauto |].
    apply map_get_None in E. exfalso. apply E, list_elem_of_In. exact Hx.
  - clear Hsd Hsd'. induction m as [| [k0 v0] m IH]; cbn [map_delete List.map fst].
    + constructor.
    + cbn [List.map fst] in Hnd. apply NoDup_cons in Hnd as [Hnotin Hnd].
      destruct (decide (k0 = k)); [exact Hnd |]. cbn [List.map fst].
      apply NoDup_cons. split; [| exact (IH Hnd)].
      intros Hin. apply Hnotin. apply list_elem_of_In.
      apply (map_keys_delete m k). apply list_elem_of_In. exact Hin.
  - auto.
Qed.

(** X9: the cache schedules a save only for a change: setting a value
    that is already stored (one that is [===] to itself) changes neither
    the map nor the number of scheduled saves, deleting an absent key
    returns [false] and changes nothing, deleting a present key and
    [clear] schedule one save each, and the number of scheduled saves
    never goes down. *)
Theorem autosaveCache_commits (c : Cache) (k : K) (v : V) :
  (strictNe (Some v) v = false ->
   cache_set strictNe k v (cache_set strictNe k v c) = cache_set strictNe k v c) /\
  (cache_get k c = None -> cache_delete k c = (false, c)) /\
  (cache_has k c = true ->
   fst (cache_delete k c) = true /\
   commits (snd (cache_delete k c)) = Datatypes.S (commits c)) /\
  commits (cache_clear c) = Datatypes.S (commits c) /\
  (commits c <= commits (cache_set strictNe k v c))%nat /\
  (commits c <= commits (snd (cache_delete k c)))%nat.
Proof.
  destruct c as [m n].
  unfold cache_get, cache_has, cache_set, cache_delete, cache_clear.
  cbn [savedData commits]. split; [| split; [| split; [| split; [| split]]]].
  - intros Hsame.
    assert (map_set k v (map_set k v m) = map_set k v m) as Hidem.
    { induction m as [| [k0 v0] m IH]; cbn [map_set].
      - destruct (decide (k = k)); congruence.
      - destruct (decide (k0 = k)) as [-> | Hne]; cbn [map_set].
        + destruct (decide (k = k)); congruence.
        + destruct (decide (k0 = k)); [congruence |]. rewrite IH. reflexivity. }
    destruct (strictNe (map_get k m) v); cbn [savedData commits _commit];
      rewrite map_get_set; (destruct (decide (k = k)); [| congruence]);
      rewrite Hsame, Hidem; reflexivity.
  - intros Habs. rewrite Habs, (map_delete_absent m k Habs).
    rewrite bool_decide_eq_false_2 by (intros [x Hx]; discriminate). reflexivity.
  - intros Hhas. rewrite Hhas. cbn [fst snd commits _commit]. auto.
  - reflexivity.
  - destruct (strictNe _ _); cbn [commits _commit]; lia.
  - cbn [snd]. destruct (bool_decide _); cbn [commits _commit]; lia.
Qed.

End AutosaveCache.

Lemma autosaveCache_lookup_witness :
  cache_get "b" (cache_set (fun o v => bool_decide (o <> Some v)) "b" 2
                   (mkCache [("a", 1); ("b", 5)] 0)) = Some 2 /\
  cache_has "a" (snd (cache_delete "a" (mkCache [("a", 1); ("b", 5)] 0))) = false.
Proof.
  destruct (autosaveCache_lookup (fun o v => bool_decide (o <> Some v))
              (mkCache [("a", 1); ("b", 5)] 0) "b" "a" 2) as (Hget & _).
  { repeat constructor; cbn; intros Hin; repeat (apply elem_of_cons in Hin as [Hin | Hin]; [discriminate |]); inversion Hin. }
  destruct (autosaveCache_lookup (fun o v => bool_decide (o <> Some v))
              (mkCache [("a", 1); ("b", 5)] 0) "a" "b" 2) as (_ & _ & Hdel & _).
  { repeat constructor; cbn; intros Hin; repeat (apply elem_of_cons in Hin as [Hin | Hin]; [discriminate |]); inversion Hin. }
  split; [exact Hget | exact Hdel].
Defined.

Lemma autosaveCache_commits_witness :
  cache_set (fun o v => bool_decide (o <> Some v)) "a" 1
    (cache_set (fun o v => bool_decide (o <> Some v)) "a" 1 (mkCache [] 0))
  = mkCache [("a", 1)] 1 /\
  cache_delete "zz" (mkCache [("a", 1)] 1)
  = (false, mkCache (V := Z) [("a", 1)] 1).
Proof.
  destruct (autosaveCache_commits (fun o v => bool_decide (o <> Some v))
              (mkCache [] 0) "a" 1) as (Hsame & _).
  destruct (autosaveCache_commits (fun o v => bool_decide (o <> Some v))
              (mkCache [("a", 1)] 1) "zz" 1) as (_ & Habsent & _).
  split; [exact (Hsame eq_refl) | exact (Habsent eq_refl)].
Defined.


(** ** More on the freshness comparator and the equivalence tracker *)

Lemma compareMTime_refl (a : Z) : compareMTime a a = Normal EVEN.
Proof.
  destruct (UtilsSpec.compareMTime_cases a a) as [[_ E] | [[Hlt _] | [Hlt _]]];
    [exact E | lia | lia].
Qed.

(** X10: on all integer timestamps, also where the 32-bit coercion
    wraps, [compareMTime] is a consistent ordering: a timestamp is [EVEN]
    with itself; exchanging the arguments keeps [EVEN] and exchanges
    [BASE_IS_NEW] with [TARGET_IS_NEW]; a timestamp [EVEN] with another
    compares with any third one exactly as the other does; and
    [BASE_IS_NEW] is transitive. *)
Theorem compareMTime_order (a b c : Z) :
  compareMTime a a = Normal EVEN /\
  (compareMTime a b = Normal EVEN <-> compareMTime b a = Normal EVEN) /\
  (compareMTime a b = Normal BASE_IS_NEW <->
   compareMTime b a = Normal TARGET_IS_NEW) /\
  (compareMTime a b = Normal EVEN -> compareMTime a c = compareMTime b c) /\
  (compareMTime a b = Normal BASE_IS_NEW ->
   compareMTime b c = Normal BASE_IS_NEW ->
   compareMTime a c = Normal BASE_IS_NEW).
Proof.
  pose proof (UtilsSpec.compareMTime_cases a b) as Hab.
  pose proof (UtilsSpec.compareMTime_cases b a) as Hba.
  pose proof (UtilsSpec.compareMTime_cases a c) as Hac.
  pose proof (UtilsSpec.compareMTime_cases b c) as Hbc.
  cbv zeta in *.
  set (ta := truncInt32 a resolution * resolution) in *.
  set (tb := truncInt32 b resolution * resolution) in *.
  set (tc := truncInt32 c resolution * resolution) in *.
  split; [| split; [| split; [| split]]].
  - apply compareMTime_refl.
  - destruct Hab as [[H1 E1] | [[H1 E1] | [H1 E1]]];
      destruct Hba as [[H2 E2] | [[H2 E2] | [H2 E2]]];
      rewrite E1, E2; split; intros Heq; try reflexivity; try discriminate; lia.
  - destruct Hab as [[H1 E1] | [[H1 E1] | [H1 E1]]];
      destruct Hba as [[H2 E2] | [[H2 E2] | [H2 E2]]];
      rewrite E1, E2; split; intros Heq; try reflexivity; try discriminate; lia.
  - intros Heven.
    destruct Hab as [[H1 E1] | [[H1 E1] | [H1 E1]]]; rewrite E1 in Heven;
      try discriminate.
    destruct Hac as [[H2 E2] | [[H2 E2] | [H2 E2]]];
      destruct Hbc as [[H3 E3] | [[H3 E3] | [H3 E3]]];
      rewrite E2, E3; try reflexivity; lia.
  - intros Hnew1 Hnew2.
    destruct Hab as [[H1 E1] | [[H1 E1] | [H1 E1]]]; rewrite E1 in Hnew1;
      try discriminate.
    destruct Hbc as [[H3 E3] | [[H3 E3] | [H3 E3]]]; rewrite E3 in Hnew2;
      try discriminate.
    destruct Hac as [[H2 E2] | [[H2 E2] | [H2 E2]]]; rewrite E2;
      try reflexivity; lia.
Qed.

Lemma compareMTime_order_witness :
  compareMTime 1700000000500 4294967296000
  = compareMTime 1700000001500 4294967296000.
Proof.
  destruct (compareMTime_order 1700000000500 1700000001500 4294967296000)
    as (_ & _ & _ & Heven & _).
  exact (Heven eq_refl).
Defined.

Section Registry.
Context `{CommonLib}.

(** X11: [compareFileFreshness] consults the registry only when both
    modification times are non-zero: with a zero on either side the
    verdict is that of [compareMTime], whatever is registered. *)
Theorem compareFileFreshness_zero_mtime
    (base target : FileOrEntry) (s : PairStore) :
  modifiedOf base = 0 \/ modifiedOf target = 0 ->
  compareFileFreshness (Some base) (Some target) s
  = compareMTime (modifiedOf base) (modifiedOf target).
Proof.
  intros Hzero. unfold compareFileFreshness, truthy.
  destruct Hzero as [-> | ->]; cbn [negb andb Z.eqb]; [reflexivity |].
  destruct (negb (modifiedOf base =? 0)); reflexivity.
Qed.

(** X12: once two non-zero timestamps are marked as the same change
    under the key of the base file, [compareFileFreshness] of a base
    with the one and a target with the other is [EVEN], in either order
    of the mark and however far apart the timestamps are. *)
Theorem compareFileFreshness_after_mark
    (file : FileArg) (base target : FileOrEntry) (s : PairStore) :
  getKey file = getKey (asArg base) ->
  modifiedOf base <> 0 -> modifiedOf target <> 0 ->
  compareFileFreshness (Some base) (Some target)
    (snd (markChangesAreSame file (modifiedOf base) (modifiedOf target) s))
  = Normal EVEN /\
  compareFileFreshness (Some base) (Some target)
    (snd (markChangesAreSame file (modifiedOf target) (modifiedOf base) s))
  = Normal EVEN.
Proof.
  intros Hkey Hb Ht.
  assert (forall t1 t2 s',
            t1 <> 0 -> t2 <> 0 -> modifiedOf base = t1 -> modifiedOf target = t2 ->
            (t1 <> t2 -> t1 ∈ store_get s' (getKey file) [] /\
                         t2 ∈ store_get s' (getKey file) []) ->
            compareFileFreshness (Some base) (Some target) s' = Normal EVEN) as Hgen.
  { intros t1 t2 s' H1 H2 E1 E2 Hin. unfold compareFileFreshness, truthy.
    rewrite E1, E2.
    destruct (Z.eqb_spec t1 0); [contradiction |].
    destruct (Z.eqb_spec t2 0); [contradiction |]. cbn [negb andb].
    case_bool_decide as Hm; [reflexivity |].
    destruct (Z.eq_dec t1 t2) as [<- | Hne].
    - apply compareMTime_refl.
    - exfalso. apply Hm. exists EVEN.
      apply UtilsSpec.isMarkedAsSameChanges_iff. rewrite <- Hkey.
      destruct (Hin Hne) as [I1 I2]. intros e He.
      apply elem_of_cons in He as [-> | He]; [exact I1 |].
      apply list_elem_of_singleton in He as ->. exact I2. }
  split.
  - apply (Hgen (modifiedOf base) (modifiedOf target)); auto.
    intros Hne.
    destruct (UtilsSpec.markChangesAreSame_elem file _ _ s Hne) as (I1 & I2 & _).
    auto.
  - apply (Hgen (modifiedOf base) (modifiedOf target)); auto.
    intros Hne.
    destruct (UtilsSpec.markChangesAreSame_elem file _ _ s
                (not_eq_sym Hne)) as (I1 & I2 & _).
    auto.
Qed.

Lemma store_get_runOp_other (op : TrackerOp) (key : string) (s : PairStore) :
  match op with
  | OpMark f _ _ => getKey f <> key
  | OpUnmark f => getKey f <> key
  end ->
  store_get (runOp op s) key [] = store_get s key [].
Proof.
  unfold store_get. destruct op as [f t1 t2 | f]; cbn [runOp]; intros Hne.
  - unfold markChangesAreSame. destruct (t1 =? t2); [reflexivity |].
    destruct (existsb _ _); cbn [snd]; unfold PairStore;
      rewrite lookup_insert_ne by exact Hne; reflexivity.
  - unfold unmarkChanges, PairStore. rewrite lookup_delete_ne by exact Hne.
    reflexivity.
Qed.

(** X13: the registry is partitioned by key: marking or unmarking a file
    changes no answer of [isMarkedAsSameChanges] for a file with another
    key. *)
Theorem registry_partitioned_by_key
    (f g : FileArg) (t1 t2 : Z) (mtimes : list Z) (s : PairStore) :
  getKey f <> getKey g ->
  isMarkedAsSameChanges g mtimes (snd (markChangesAreSame f t1 t2 s))
  = isMarkedAsSameChanges g mtimes s /\
  isMarkedAsSameChanges g mtimes (unmarkChanges f s)
  = isMarkedAsSameChanges g mtimes s.
Proof.
  intros Hne. unfold isMarkedAsSameChanges. split.
  - pose proof (store_get_runOp_other (OpMark f t1 t2) (getKey g) s Hne) as E.
    cbn [runOp] in E. rewrite E. reflexivity.
  - pose proof (store_get_runOp_other (OpUnmark f) (getKey g) s Hne) as E.
    cbn [runOp] in E. rewrite E. reflexivity.
Qed.

Lemma NoDup_uniqFrom (seen l : list Z) : NoDup (uniqFrom seen l).
Proof.
  revert seen. induction l as [| x l IH]; intros seen; cbn [uniqFrom].
  - constructor.
  - case_bool_decide as Hx; [apply IH |].
    apply NoDup_cons. split; [| apply IH].
    rewrite UtilsSpec.elem_of_uniqFrom. intros [_ Hn]. apply Hn. left.
Qed.

Lemma two_distinct_members (l : list Z) (a b : Z) :
  a ∈ l -> b ∈ l -> a <> b -> (2 <= List.length l)%nat.
Proof.
  intros Ha Hb Hne. destruct l as [| x [| y l]]; cbn [List.length]; [| | lia].
  - inversion Ha.
  - apply list_elem_of_singleton in Ha, Hb. congruence.
Qed.

(** X14: every set the tracker stores is free of duplicates and has at
    least two members; the calls of the tracker keep it so, hence so is
    every registry built from the empty one. *)
Theorem registry_sets_well_formed (ops : list TrackerOp) (s : PairStore) :
  map_Forall (fun _ l => NoDup l /\ (2 <= List.length l)%nat) s ->
  map_Forall (fun _ l => NoDup l /\ (2 <= List.length l)%nat) (runOps ops s).
Proof.
  revert s. induction ops as [| op ops IH]; intros s Hs; cbn [runOps fold_left].
  - exact Hs.
  - apply IH. clear IH. unfold PairStore in *.
    destruct op as [f t1 t2 | f]; cbn [runOp].
    + destruct (Z.eq_dec t1 t2) as [-> | Hne].
      * unfold markChangesAreSame. rewrite Z.eqb_refl. exact Hs.
      * destruct (UtilsSpec.markChangesAreSame_elem f t1 t2 s Hne)
          as (I1 & I2 & _).
        pose proof (two_distinct_members _ _ _ I1 I2 Hne) as Hlen.
        revert I1 I2 Hlen. unfold markChangesAreSame.
        apply Z.eqb_neq in Hne. rewrite Hne.
        destruct (existsb _ _); cbn [snd]; rewrite UtilsSpec.store_get_insert;
          intros I1 I2 Hlen; apply map_Forall_insert_2; auto.
        -- split; [apply NoDup_uniqFrom | exact Hlen].
        -- split; [| exact Hlen]. apply Z.eqb_neq in Hne.
           apply NoDup_cons. split; [| apply NoDup_singleton].
           intros Hin. apply list_elem_of_singleton in Hin. contradiction.
    + unfold unmarkChanges. apply map_Forall_delete. exact Hs.
Qed.

End Registry.

Lemma compareFileFreshness_zero_mtime_witness :
  compareFileFreshness
    (Some (inl (mkStub "a.md" "a.md" (mkStat 0 0 0) false false)))
    (Some (inr (mkEntry "a.md" None "a.md" 5000 0 0 None None [])))
    (snd (markChangesAreSame (ByPath "a.md") 0 5000 ∅))
  = Normal TARGET_IS_NEW.
Proof.
  rewrite (compareFileFreshness_zero_mtime
             (inl (mkStub "a.md" "a.md" (mkStat 0 0 0) false false))
             (inr (mkEntry "a.md" None "a.md" 5000 0 0 None None []))
             (snd (markChangesAreSame (ByPath "a.md") 0 5000 ∅))
             (or_introl eq_refl)).
  reflexivity.
Defined.

Lemma compareFileFreshness_after_mark_witness :
  compareFileFreshness
    (Some (inl (mkStub "a.md" "a.md" (mkStat 0 1000 0) false false)))
    (Some (inr (mkEntry "a.md" None "a.md" 900000 0 0 None None [])))
    (snd (markChangesAreSame (ByPath "a.md") 1000 900000 ∅))
  = Normal EVEN.
Proof.
  destruct (compareFileFreshness_after_mark (ByPath "a.md")
              (inl (mkStub "a.md" "a.md" (mkStat 0 1000 0) false false))
              (inr (mkEntry "a.md" None "a.md" 900000 0 0 None None []))
              ∅) as [Hmarked _].
  - reflexivity.
  - discriminate.
  - discriminate.
  - exact Hmarked.
Defined.

Lemma registry_partitioned_by_key_witness :
  isMarkedAsSameChanges (ByPath "b.md") [1; 2]
    (unmarkChanges (ByPath "a.md")
       (snd (markChangesAreSame (ByPath "b.md") 1 2 ∅))) = Some EVEN.
Proof.
  destruct (registry_partitioned_by_key (ByPath "a.md") (ByPath "b.md") 0 0
              [1; 2] (snd (markChangesAreSame (ByPath "b.md") 1 2 ∅)))
    as [_ Hunmark].
  - discriminate.
  - rewrite Hunmark. reflexivity.
Defined.

Lemma registry_sets_well_formed_witness :
  map_Forall (fun _ l => NoDup l /\ (2 <= List.length l)%nat)
    (runOps [OpMark (ByPath "a.md") 1 2; OpMark (ByPath "a.md") 2 3;
             OpUnmark (ByPath "b.md")] (∅ : PairStore)).
Proof.
  apply (registry_sets_well_formed
           [OpMark (ByPath "a.md") 1 2; OpMark (ByPath "a.md") 2 3;
            OpUnmark (ByPath "b.md")] ∅).
  apply map_Forall_empty.
Defined.

End UtilsMoreSpec.

(** * The recent log splicer of [src/modules/features/ModuleLog.ts] *)
Module ModuleLogSpec.
Import ModuleLog.





End ModuleLogSpec.
